(** * proximity_skin_baker: a shallow embedding of the skin-weight transfer
      pipeline and the properties its specification states about it.

    The Python module talks to a host application (Maya) through [maya.cmds]
    and the OpenMaya API.  The embedding keeps the module's own logic (path
    arithmetic on strings, sorting, filtering, the order of host calls) as it
    is written and represents every host call as an event of a small command
    monad, so that the same program text can be run against any host model.

    Embedded from [proximity_skin_baker.py]: the dataclasses [Joint] and
    [Skin], [get_joint_data], [build_path_from_root], [get_skeleton_data],
    [get_related_skin_node], [get_skin_data], [set_skin], [cleanup] and
    [SkinBaker._bake].

    Conventions: node names of the host are ASCII, so a Python [str] is a
    [string] of bytes, its length the number of characters and its order
    the order of code points; a Python exception is a [Raise] result; a
    weight is a [float] that is only ever copied. *)

From Stdlib Require Import Floats Ascii OrdersEx.
From stdpp Require Import gmap strings list sorting.

Open Scope string_scope.
Open Scope list_scope.

(** ** Python primitives used by the module *)

Module Py.

(** The exceptions the module can run into. [RuntimeError] is what the
    host raises when a command fails. *)
Inductive exn : Type :=
| IndexError
| ValueError
| TypeError
| RuntimeError.

Inductive result (A : Type) : Type :=
| Ok (a : A)
| Raise (e : exn).
Arguments Ok {A} a.
Arguments Raise {A} e.

Definition is_ok {A} (r : result A) : bool :=
  match r with Ok _ => true | Raise _ => false end.

(** [s.startswith(p)] *)
Definition startswith (s p : string) : bool := String.prefix p s.

(** Helper of [split]: put character [c] in front of the first piece. *)
Definition cons_hd (c : Ascii.ascii) (l : list string) : list string :=
  match l with
  | [] => [String c ""]
  | h :: t => String c h :: t
  end.

(** [s.split(sep)] for a non-empty [sep]: the pieces between the
    non-overlapping occurrences of [sep], found from left to right.
    [skip] counts the characters of a separator match still to be
    skipped. *)
Fixpoint split_go (sep : string) (skip : nat) (s : string) : list string :=
  match s with
  | "" => [""]
  | String c s' =>
      match skip with
      | S k => split_go sep k s'
      | O =>
          if String.prefix sep s
          then "" :: split_go sep (String.length sep - 1) s'
          else cons_hd c (split_go sep 0 s')
      end
  end.

(** Python raises [ValueError] on an empty separator; the callers below
    that pass a literal separator use [split] directly. *)
Definition split (sep s : string) : list string := split_go sep 0 s.

Definition split_checked (sep s : string) : result (list string) :=
  if decide (sep = "") then Raise ValueError else Ok (split sep s).

(** [sub in s] *)
Fixpoint contains (s sub : string) : bool :=
  String.prefix sub s
  || match s with
     | "" => false
     | String _ s' => contains s' sub
     end.

(** [sep.join(l)] *)
Fixpoint join (sep : string) (l : list string) : string :=
  match l with
  | [] => ""
  | [x] => x
  | x :: l' => x +:+ sep +:+ join sep l'
  end.

(** [l[-1]] on a list that is never empty ([split] always returns at
    least one piece, see [split_go_nonempty]). *)
Definition item_last (l : list string) : string := List.last l "".

(** [l[:-1]] and [l[1:]] *)
Definition slice_to_m1 {A} (l : list A) : list A := removelast l.
Definition slice_from_1 {A} (l : list A) : list A := drop 1 l.

(** [l[0]] *)
Definition item0 {A} (l : list A) : result A :=
  match l with
  | [] => Raise IndexError
  | x :: _ => Ok x
  end.

(** [_, b = l]: unpacking into exactly two targets. *)
Definition unpack2 {A} (l : list A) : result (A * A) :=
  match l with
  | [a; b] => Ok (a, b)
  | _ => Raise ValueError
  end.

(** [sorted] is a stable sort; any stable sort returns the same list, so
    it is written as an insertion sort. [le x y] says that [x] may stay
    in front of [y]. *)
Fixpoint insert_sorted {A} (le : A -> A -> bool) (x : A) (l : list A) : list A :=
  match l with
  | [] => [x]
  | y :: l' => if le x y then x :: y :: l' else y :: insert_sorted le x l'
  end.

Definition sorted_by {A} (le : A -> A -> bool) (l : list A) : list A :=
  foldr (insert_sorted le) [] l.

(** [sorted(l)] on strings: code-point order, [String.leb]. A value that
    is not iterable ([None]) raises [TypeError]. *)
Definition sorted (l : option (list string)) : result (list string) :=
  match l with
  | None => Raise TypeError
  | Some l => Ok (sorted_by String.leb l)
  end.

(** [sorted(l, key=len, reverse=True)] *)
Definition sorted_len_desc (l : list string) : list string :=
  sorted_by (fun x y => String.length y <=? String.length x)%nat l.

End Py.

Import Py.

#[global] Instance result_ret : MRet result := fun _ a => Ok a.
#[global] Instance result_bind : MBind result := fun _ _ f r =>
  match r with
  | Ok a => f a
  | Raise e => Raise e
  end.
#[global] Instance result_fmap : FMap result := fun _ _ f r =>
  match r with
  | Ok a => Ok (f a)
  | Raise e => Raise e
  end.

(** ** Data model (the two dataclasses of the module) *)

Definition vec3 : Type := float * float * float.

Record Joint : Type := mkJoint {
  name : string;
  world_position : vec3;
  rotate : vec3;
  joint_orient : vec3;
  rotate_order : Z;
  radius : float;
  parent_path : option string
}.

(** The weight field keeps the spelling it has in the source. *)
Record Skin : Type := mkSkin {
  influence_objects : list string;
  weilghts : list float
}.

Definition NAMESPACE : string := "proximity_bake".

(** What [get_related_skin_node] can return: a node name, [False] (no
    history at all) or [None] (the loop found no skinCluster and the function
    falls off its end). *)
Inductive node_ref : Type :=
| Node (n : string)
| PyFalse
| PyNone.

(** Truth value of such a value in an [if]. *)
Definition truthy (r : node_ref) : bool :=
  match r with
  | Node n => negb (String.eqb n "")
  | PyFalse | PyNone => false
  end.

(** ** The host interface

    One constructor per host call the modelled functions make, with the
    arguments the source passes. [resp] gives the type of the value the
    call returns to Python. *)

Inductive widget : Type := source_geom_tfbg | root_tfbg | target_geom_tfbg.

Inductive cmd : Type :=
(* maya.cmds *)
| Ls_long (pattern : string)              (* mc.ls(pattern, l=True) *)
| Ls_all                                  (* mc.ls() *)
| ListRelatives_ad_joint (path : string)  (* mc.listRelatives(path, ad=True, type="joint", f=True) *)
| Xform_q_ws_t (path : string)            (* mc.xform(path, q=True, ws=True, t=True) *)
| GetAttr_double3 (plug : string)         (* mc.getAttr(plug)[0] *)
| GetAttr_int (plug : string)             (* mc.getAttr(plug) *)
| GetAttr_double (plug : string)          (* mc.getAttr(plug) *)
| ListHistory (geom : string)             (* mc.listHistory(geom) *)
| NodeType (node : string)                (* mc.nodeType(node) *)
| Delete (nodes : list string)            (* mc.delete(nodes) *)
| NamespaceInfo_lon_r                     (* mc.namespaceInfo(lon=True, r=True) *)
| Namespace_rm (ns : string)              (* mc.namespace(rm=ns) *)
| SkinCluster_unbind (skin_node : node_ref)   (* mc.skinCluster(skin_node, e=True, ub=True) *)
| SkinCluster_bind (objects : list string)    (* mc.skinCluster(objects, tsb=True) *)
| BakeDeformer (sm ss dm ds : string) (mi : Z)  (* mc.bakeDeformer(sm=, ss=, dm=, ds=, mi=) *)
| TextField_q_tx (w : widget)             (* mc.textFieldButtonGrp(w, q=True, tx=True) *)
| IntField_q_v1                           (* mc.intFieldGrp(influence_ifg, q=True, v1=True) *)
(* OpenMaya: MFnSkinCluster on the named skinCluster node *)
| Skin_influenceObjects (skin_node : string)      (* [p.fullPathName() for p in influenceObjects()] *)
| Skin_getWeights (skin_node geom : string)       (* list(getWeights(geom, geom.vtx[*])[0]) *)
| Skin_outputGeometry (skin_node : string)        (* getAPathTo(getOutputGeometry()[0]).fullPathName() *)
| Skin_setWeights (skin_node geom : string) (inf_indices : list nat)
    (weights : list float) (normalize : bool).    (* setWeights(geom, geom.vtx[*], idx, w, normalize) *)

Definition resp (c : cmd) : Type :=
  match c with
  | Ls_long _ | Ls_all | NamespaceInfo_lon_r | SkinCluster_bind _
  | Skin_influenceObjects _ => list string
  | ListRelatives_ad_joint _ | ListHistory _ => option (list string)
  | Xform_q_ws_t _ | GetAttr_double3 _ => vec3
  | GetAttr_int _ | IntField_q_v1 => Z
  | GetAttr_double _ => float
  | NodeType _ | TextField_q_tx _ | Skin_outputGeometry _ => string
  | Skin_getWeights _ _ => list float
  | Delete _ | Namespace_rm _ | SkinCluster_unbind _ | BakeDeformer _ _ _ _ _
  | Skin_setWeights _ _ _ _ _ => unit
  end.

(** Programs: a value, a raised exception, or a host call followed by the
    rest of the program. *)
Inductive Prog (A : Type) : Type :=
| Ret (a : A)
| Throw (e : exn)
| Call (c : cmd) (k : resp c -> Prog A).
Arguments Ret {A} a.
Arguments Throw {A} e.
Arguments Call {A} c k.

Fixpoint prog_bind_def {A B} (f : A -> Prog B) (p : Prog A) : Prog B :=
  match p with
  | Ret a => f a
  | Throw e => Throw e
  | Call c k => Call c (fun x => prog_bind_def f (k x))
  end.

#[global] Instance prog_ret : MRet Prog := fun _ a => Ret a.
#[global] Instance prog_bind : MBind Prog := fun _ _ f p => prog_bind_def f p.

Definition call (c : cmd) : Prog (resp c) := Call c Ret.

Definition lift {A} (r : result A) : Prog A :=
  match r with
  | Ok a => Ret a
  | Raise e => Throw e
  end.

(** [for x in l: acc = body(acc, x)] *)
Fixpoint for_fold {A B} (body : B -> A -> Prog B) (acc : B) (l : list A) : Prog B :=
  match l with
  | [] => mret acc
  | x :: l' => acc' ← body acc x; for_fold body acc' l'
  end.

(** [for x in l: body(x)] *)
Definition for_each {A} (l : list A) (body : A -> Prog unit) : Prog unit :=
  for_fold (fun _ x => body x) tt l.

(** A host is a state type with a handler that answers every call, or
    raises. *)
Definition handler (S : Type) : Type := forall c : cmd, S -> result (resp c * S).

Fixpoint run {S A} (h : handler S) (p : Prog A) (s : S) : result (A * S) :=
  match p with
  | Ret a => Ok (a, s)
  | Throw e => Raise e
  | Call c k =>
      match h c s with
      | Ok (x, s') => run h (k x) s'
      | Raise e => Raise e
      end
  end.

(** The host calls a run issues, in order, up to its end or to the first
    exception. *)
Fixpoint trace {S A} (h : handler S) (p : Prog A) (s : S) : list cmd :=
  match p with
  | Ret _ | Throw _ => []
  | Call c k =>
      c :: match h c s with
           | Ok (x, s') => trace h (k x) s'
           | Raise _ => []
           end
  end.

(** ** The functions of the module *)

(** [get_joint_data] *)
Definition get_joint_data (joint_path : string) : Prog Joint :=
  world_position ← call (Xform_q_ws_t joint_path);
  rotate ← call (GetAttr_double3 (joint_path +:+ ".r"));
  joint_orient ← call (GetAttr_double3 (joint_path +:+ ".jo"));
  rotate_order ← call (GetAttr_int (joint_path +:+ ".ro"));
  radius ← call (GetAttr_double (joint_path +:+ ".radi"));
  mret {| name := item_last (split "|" joint_path);
          world_position := world_position;
          rotate := rotate;
          joint_orient := joint_orient;
          rotate_order := rotate_order;
          radius := radius;
          parent_path := None |}.

(** [build_path_from_root] *)
Definition build_path_from_root (path root_path : string) : result string :=
  let root := item_last (split "|" root_path) in
  parts ← split_checked root_path path;
  '(_, current_path) ← unpack2 parts;
  mret ("|" +:+ root +:+ current_path).

Definition set_parent_path (j : Joint) (p : string) : Joint :=
  {| name := name j;
     world_position := world_position j;
     rotate := rotate j;
     joint_orient := joint_orient j;
     rotate_order := rotate_order j;
     radius := radius j;
     parent_path := Some p |}.

(** Body of the loop of [get_skeleton_data] over [child_joints]. *)
Definition skeleton_step (root_joint_path : string) (data : list Joint)
    (joint_path : string) : Prog (list Joint) :=
  current_data ← get_joint_data joint_path;
  current_path ← lift (build_path_from_root joint_path root_joint_path);
  let parent_path := join "|" (slice_to_m1 (split "|" current_path)) in
  mret (data ++ [set_parent_path current_data parent_path]).

(** [get_skeleton_data] *)
Definition get_skeleton_data (root_joint_path : string) : Prog (list Joint) :=
  found ← call (Ls_long root_joint_path);
  root_joint_path ← lift (item0 found);
  root_data ← get_joint_data root_joint_path;
  relatives ← call (ListRelatives_ad_joint root_joint_path);
  child_joints ← lift (sorted relatives);
  for_fold (skeleton_step root_joint_path) [root_data] child_joints.

(** The loop of [get_related_skin_node]: the first history node of type
    skinCluster, [None] when the loop ends without one. *)
Fixpoint first_skin_cluster (history_nodes : list string) : Prog node_ref :=
  match history_nodes with
  | [] => mret PyNone
  | node :: rest =>
      t ← call (NodeType node);
      if String.eqb t "skinCluster" then mret (Node node)
      else first_skin_cluster rest
  end.

(** [get_related_skin_node] *)
Definition get_related_skin_node (geom : string) : Prog node_ref :=
  history_nodes ← call (ListHistory geom);
  match history_nodes with
  | None | Some [] => mret PyFalse
  | Some nodes => first_skin_cluster nodes
  end.

(** [get_skin_data]. Adding a value that is not a string to the selection
    list raises [TypeError]. *)
Definition get_skin_data (skin_node : node_ref) (geom : string) : Prog Skin :=
  match skin_node with
  | Node skin_node =>
      influence_objects ← call (Skin_influenceObjects skin_node);
      weights ← call (Skin_getWeights skin_node geom);
      mret {| influence_objects := influence_objects; weilghts := weights |}
  | PyFalse | PyNone => Throw TypeError
  end.

(** [arr = Array(); for x in l: arr.append(x)] *)
Definition array_of {A} (l : list A) : list A :=
  foldl (fun arr x => arr ++ [x]) [] l.

(** [set_skin] *)
Definition set_skin (skin_data : Skin) (skin_node : string) : Prog unit :=
  geom ← call (Skin_outputGeometry skin_node);
  let inf_indices := array_of (seq 0 (length (influence_objects skin_data))) in
  let weights := array_of (weilghts skin_data) in
  call (Skin_setWeights skin_node geom inf_indices weights false).

(** [cleanup] *)
Definition cleanup : Prog unit :=
  all_nodes ← call Ls_all;
  let deleted_nodes :=
    List.filter (fun node => startswith node (NAMESPACE +:+ ":")) all_nodes in
  call (Delete deleted_nodes);;
  all_namespaces ← call NamespaceInfo_lon_r;
  let namespaces :=
    sorted_len_desc
      (List.filter (fun n => startswith n (NAMESPACE +:+ ":")) all_namespaces) in
  for_each namespaces (fun namespace => call (Namespace_rm namespace)).

(** [":".join(p.split(":")[1:])] *)
Definition strip_qualifier (p : string) : string :=
  join ":" (slice_from_1 (split ":" p)).

(** The list comprehension of [_bake] over the non-empty segments of an
    influence path: [[":".join(p.split(":")[1:]) for p in inf.split("|") if p]]. *)
Definition strip_parts (inf : string) : list string :=
  map strip_qualifier
      (List.filter (fun p => negb (String.eqb p "")) (split "|" inf)).

(** The remap loop of [_bake]: one wildcard pattern per raw influence. *)
Definition remap_influence (inf : string) : string :=
  "*|" +:+ join "|" (strip_parts inf).

Definition remap_influences (raw : list string) : list string :=
  array_of (map remap_influence raw).

(** [SkinBaker._bake] (the timing decorator only prints the elapsed time). *)
Definition _bake : Prog unit :=
  root ← call (TextField_q_tx root_tfbg);
  target ← call (TextField_q_tx target_geom_tfbg);
  let source_root := NAMESPACE +:+ ":" +:+ item_last (split "|" root) in
  let source_geom := NAMESPACE +:+ ":" +:+ item_last (split "|" target) in
  influence_number ← call IntField_q_v1;
  skin_node ← get_related_skin_node target;
  (if truthy skin_node then call (SkinCluster_unbind skin_node) else mret tt);;
  call (BakeDeformer source_geom source_root target source_root influence_number);;
  skin_node ← get_related_skin_node target;
  skin_data ← get_skin_data skin_node target;
  call (SkinCluster_unbind skin_node);;
  let skin_data :=
    {| influence_objects := remap_influences (influence_objects skin_data);
       weilghts := weilghts skin_data |} in
  bound ← call (SkinCluster_bind (influence_objects skin_data ++ [target]));
  skin_node ← lift (item0 bound);
  set_skin skin_data skin_node;;
  cleanup.

(** ** Host models

    The host is not part of the module. Each model below answers the calls
    of one part of the pipeline and raises [RuntimeError] on every other
    call. *)

(** *** Read-only view of a scene: what the queries of skeleton extraction
        return. The queries do not change the scene, so the state is [unit]. *)

Record SceneView : Type := mkView {
  sv_ls : string -> list string;
  sv_relatives : string -> option (list string);
  sv_xform : string -> vec3;
  sv_attr3 : string -> vec3;
  sv_attr_int : string -> Z;
  sv_attr_double : string -> float
}.

Definition view_handler (v : SceneView) : handler unit :=
  fun c s =>
    match c as c0 return result (resp c0 * unit) with
    | Ls_long p => Ok (sv_ls v p, s)
    | ListRelatives_ad_joint p => Ok (sv_relatives v p, s)
    | Xform_q_ws_t p => Ok (sv_xform v p, s)
    | GetAttr_double3 p => Ok (sv_attr3 v p, s)
    | GetAttr_int p => Ok (sv_attr_int v p, s)
    | GetAttr_double p => Ok (sv_attr_double v p, s)
    | _ => Raise RuntimeError
    end.

(** The same scene in which every name resolves to [r] alone. *)
Definition resolving_to (v : SceneView) (r : string) : SceneView :=
  {| sv_ls := fun _ => [r];
     sv_relatives := sv_relatives v;
     sv_xform := sv_xform v;
     sv_attr3 := sv_attr3 v;
     sv_attr_int := sv_attr_int v;
     sv_attr_double := sv_attr_double v |}.

Definition extract_skeleton (v : SceneView) (root : string) : result (list Joint) :=
  fst <$> run (view_handler v) (get_skeleton_data root) tt.

(** *** The namespace workspace: the node names [mc.ls()] lists and the
        namespaces [mc.namespaceInfo] lists.

    [mc.delete] removes the listed nodes. [mc.namespace(rm=n)] fails unless
    [n] exists and is empty, that is, no node and no namespace is left
    inside it. *)

Record Workspace : Type := mkWorkspace {
  ws_nodes : gset string;
  ws_namespaces : gset string
}.

Definition inside (ns : string) (x : string) : bool := startswith x (ns +:+ ":").

Definition namespace_empty (w : Workspace) (ns : string) : bool :=
  negb (existsb (inside ns) (elements (ws_nodes w)))
  && negb (existsb (inside ns) (elements (ws_namespaces w))).

Definition workspace_handler : handler Workspace :=
  fun c w =>
    match c as c0 return result (resp c0 * Workspace) with
    | Ls_all => Ok (elements (ws_nodes w), w)
    | Delete nodes =>
        Ok (tt, {| ws_nodes := ws_nodes w ∖ list_to_set nodes;
                   ws_namespaces := ws_namespaces w |})
    | NamespaceInfo_lon_r => Ok (elements (ws_namespaces w), w)
    | Namespace_rm ns =>
        if bool_decide (ns ∈ ws_namespaces w) && namespace_empty w ns
        then Ok (tt, {| ws_nodes := ws_nodes w;
                        ws_namespaces := ws_namespaces w ∖ {[ns]} |})
        else Raise RuntimeError
    | _ => Raise RuntimeError
    end.

(** Names under the reserved scope, as [cleanup] recognises them. *)
Definition scoped (x : string) : Prop := startswith x (NAMESPACE +:+ ":") = true.

#[global] Instance scoped_dec x : Decision (scoped x).
Proof. unfold scoped. apply _. Defined.

(** A host call that is not the removal of a namespace outside the
    scope prefix. *)
Definition removes_only_scoped (c : cmd) : Prop :=
  match c with
  | Namespace_rm ns => scoped ns
  | _ => True
  end.

(** *** Skin bindings: the skinCluster nodes of a scene by name, each with
        the mesh it deforms, its ordered influences and one row of weights
        per vertex of that mesh (one weight per influence in a row). *)

Record SkinCluster : Type := mkSkinCluster {
  sc_geom : string;
  sc_influences : list string;
  sc_weights : list (list float)
}.

Definition skin_wf (b : SkinCluster) : Prop :=
  Forall (fun row => length row = length (sc_influences b)) (sc_weights b).

(** Writing the weights [ws] of one vertex against the influence indices
    [idx]. *)
Definition write_row (idx : list nat) (ws : list float) (row : list float) : list float :=
  foldl (fun r iw => <[iw.1 := iw.2]> r) row (zip idx ws).

(** The normalising mode of the host's write, which [set_skin] never asks
    for: every written row is scaled to sum 1. *)
Definition normalize_row (row : list float) : list float :=
  let total := foldr PrimFloat.add 0%float row in
  map (fun w => PrimFloat.div w total) row.

Fixpoint write_rows (normalize : bool) (idx : list nat) (ws : list float)
    (rows : list (list float)) : list (list float) :=
  match rows with
  | [] => []
  | row :: rest =>
      let row' := write_row idx (take (length idx) ws) row in
      (if normalize then normalize_row row' else row')
        :: write_rows normalize idx (drop (length idx) ws) rest
  end.

Definition skin_handler : handler (gmap string SkinCluster) :=
  fun c st =>
    match c as c0 return result (resp c0 * gmap string SkinCluster) with
    | Skin_influenceObjects n =>
        match st !! n with
        | Some b => Ok (sc_influences b, st)
        | None => Raise RuntimeError
        end
    | Skin_getWeights n geom =>
        match st !! n with
        | Some b =>
            if decide (geom = sc_geom b) then Ok (concat (sc_weights b), st)
            else Raise RuntimeError
        | None => Raise RuntimeError
        end
    | Skin_outputGeometry n =>
        match st !! n with
        | Some b => Ok (sc_geom b, st)
        | None => Raise RuntimeError
        end
    | Skin_setWeights n geom idx ws normalize =>
        match st !! n with
        | Some b =>
            if bool_decide (geom = sc_geom b)
               && bool_decide (length ws = length (sc_weights b) * length idx)%nat
               && forallb (fun i => i <? length (sc_influences b))%nat idx
            then Ok (tt, <[n := {| sc_geom := sc_geom b;
                                   sc_influences := sc_influences b;
                                   sc_weights := write_rows normalize idx ws (sc_weights b) |}]> st)
            else Raise RuntimeError
        | None => Raise RuntimeError
        end
    | _ => Raise RuntimeError
    end.

(** Extract binding [n1] from its mesh, then apply the value to binding
    [n2]. *)
Definition extract_then_apply (n1 geom n2 : string) : Prog unit :=
  skin_data ← get_skin_data (Node n1) geom;
  set_skin skin_data n2.

(** *** The control panel: the three values the bake action reads, on a
        target mesh without history, with a bake primitive that returns. *)

Record Panel : Type := mkPanel {
  panel_root : string;
  panel_target : string;
  panel_influence : Z
}.

Definition panel_handler : handler Panel :=
  fun c p =>
    match c as c0 return result (resp c0 * Panel) with
    | TextField_q_tx root_tfbg => Ok (panel_root p, p)
    | TextField_q_tx target_geom_tfbg => Ok (panel_target p, p)
    | IntField_q_v1 => Ok (panel_influence p, p)
    | ListHistory _ => Ok (None, p)
    | BakeDeformer _ _ _ _ _ => Ok (tt, p)
    | _ => Raise RuntimeError
    end.

Definition is_bakeDeformer (c : cmd) : bool :=
  match c with
  | BakeDeformer _ _ _ _ _ => true
  | _ => false
  end.

(** ** Auxiliary definitions for the statements below *)

(** Every host call a program can make, on any path, satisfies [P]. *)
Inductive calls_only {A} (P : cmd -> Prop) : Prog A -> Prop :=
| calls_only_ret a : calls_only P (Ret a)
| calls_only_throw e : calls_only P (Throw e)
| calls_only_call c k :
    P c -> (forall x, calls_only P (k x)) -> calls_only P (Call c k).

(** The record [get_joint_data] builds from the answers of a view. *)
Definition view_joint (v : SceneView) (joint_path : string) : Joint :=
  {| name := item_last (split "|" joint_path);
     world_position := sv_xform v joint_path;
     rotate := sv_attr3 v (joint_path +:+ ".r");
     joint_orient := sv_attr3 v (joint_path +:+ ".jo");
     rotate_order := sv_attr_int v (joint_path +:+ ".ro");
     radius := sv_attr_double v (joint_path +:+ ".radi");
     parent_path := None |}.

(** The loop of [get_skeleton_data] on a view, as a function of the data
    collected so far and the children still to visit. *)
Fixpoint view_children (v : SceneView) (root_joint_path : string)
    (data : list Joint) (child_joints : list string) : result (list Joint) :=
  match child_joints with
  | [] => Ok data
  | joint_path :: rest =>
      current_path ← build_path_from_root joint_path root_joint_path;
      let parent_path := join "|" (slice_to_m1 (split "|" current_path)) in
      view_children v root_joint_path
        (data ++ [set_parent_path (view_joint v joint_path) parent_path]) rest
  end.

(** The relative path of a joint of an extracted skeleton: the path its
    replica is created under. *)
Definition joint_path_of (j : Joint) : string :=
  match parent_path j with
  | None => "|" +:+ name j
  | Some p => p +:+ "|" +:+ name j
  end.

(** A view of a scene of joints with the given full paths, all attributes
    at zero: [ls] answers [found] to every name, and the descendants of a
    path are the listed paths strictly below it ([None] when there are
    none, as the host answers). *)
Definition descendants_of (paths : list string) (p : string) : option (list string) :=
  match List.filter (fun q => startswith q (p +:+ "|")) paths with
  | [] => None
  | l => Some l
  end.

Definition joints_view (found paths : list string) : SceneView :=
  {| sv_ls := fun _ => found;
     sv_relatives := descendants_of paths;
     sv_xform := fun _ => (0, 0, 0)%float;
     sv_attr3 := fun _ => (0, 0, 0)%float;
     sv_attr_int := fun _ => 0%Z;
     sv_attr_double := fun _ => 1%float |}.

(** Example scenes. *)
Definition root_end_view : SceneView :=
  joints_view ["|root"] ["|root"; "|root|root_end"].

Definition lone_root_view : SceneView :=
  joints_view ["|root"] ["|root"].

Definition spine_view : SceneView :=
  joints_view ["|rig|root"]
    ["|rig|root"; "|rig|root|spine|head"; "|rig|root|spine"; "|rig|root|arm"].

Definition two_roots_view : SceneView :=
  joints_view ["|a|root"; "|b|root"]
    ["|a|root"; "|a|root|tip"; "|b|root"; "|b|root|toe"].

Definition used_workspace : Workspace :=
  {| ws_nodes := {["persp"; "body"; "proximity_bake:root"; "proximity_bake:body"]};
     ws_namespaces := {["UI"; "shared"; "proximity_bake"]} |}.

Definition clean_workspace : Workspace :=
  {| ws_nodes := {["persp"; "body"]};
     ws_namespaces := {["UI"; "shared"]} |}.

Definition demo_panel : Panel :=
  {| panel_root := "|rig|root"; panel_target := "|geo|body"; panel_influence := 10 |}.

Definition demo_skins : gmap string SkinCluster :=
  {[ "skinCluster1" :=
       {| sc_geom := "|source";
          sc_influences := ["|root"; "|root|spine"; "|root|spine|head"];
          sc_weights := [[1; 0; 0]; [0.5; 0.5; 0]; [0; 1; 0]; [0; 0; 1]]%float |};
     "skinCluster2" :=
       {| sc_geom := "|proximity_bake:source";
          sc_influences := ["|root"; "|root|spine"; "|root|spine|head"];
          sc_weights := [[1; 0; 0]; [1; 0; 0]; [1; 0; 0]; [1; 0; 0]]%float |} ]}.

(** The call the bake action makes on the bake primitive, for the values
    read from the panel. *)
Definition bake_call (root target : string) (influence_number : Z) : cmd :=
  BakeDeformer (NAMESPACE +:+ ":" +:+ item_last (split "|" target))
               (NAMESPACE +:+ ":" +:+ item_last (split "|" root))
               target
               (NAMESPACE +:+ ":" +:+ item_last (split "|" root))
               influence_number.

(** The call the specification describes for step 7: the same, with the
    real root joint as the destination skeleton. *)
Definition specified_bake_call (root target : string) (influence_number : Z) : cmd :=
  BakeDeformer (NAMESPACE +:+ ":" +:+ item_last (split "|" target))
               (NAMESPACE +:+ ":" +:+ item_last (split "|" root))
               target
               root
               influence_number.

(** The destination skeleton of a bake call. *)
Definition bake_ds (c : cmd) : option string :=
  match c with
  | BakeDeformer _ _ _ ds _ => Some ds
  | _ => None
  end.

(** The full path with the given segments: ["|a|b|c"] for [a], [b], [c]. *)
Definition full_path (segments : list string) : string :=
  match segments with
  | [] => ""
  | _ => "|" +:+ join "|" segments
  end.

(** A raw influence path whose segments are [ns:name] pairs. *)
Definition qualify (s : string * string) : string := s.1 +:+ ":" +:+ s.2.

Definition qualified_path (segments : list (string * string)) : string :=
  full_path (map qualify segments).

(** A segment name: not empty, no path separator. *)
Definition segment (p : string) : Prop := p <> "" /\ contains p "|" = false.

(** A namespace-qualified segment: a namespace without separators in
    front of a segment name. *)
Definition qualified (s : string * string) : Prop :=
  contains s.1 ":" = false /\ contains s.1 "|" = false /\ contains s.2 "|" = false.

(** A segment of a raw influence path as the remap meets it: a name, with
    or without a namespace qualifier in front of it. *)
Definition raw_segment : Type := option string * string.

(** The segment as it stands in the path. *)
Definition written (s : raw_segment) : string :=
  match s.1 with
  | Some ns => ns +:+ ":" +:+ s.2
  | None => s.2
  end.

(** The segment without its first colon-separated component: the name
    behind the qualifier, and nothing for a name without a qualifier. *)
Definition without_first_component (s : raw_segment) : string :=
  match s.1 with
  | Some _ => s.2
  | None => ""
  end.

(** The qualifier holds no separator; a name without a qualifier is not
    empty and holds no colon; no name holds the path separator. *)
Definition raw_segment_wf (s : raw_segment) : Prop :=
  contains s.2 "|" = false
  /\ match s.1 with
     | Some ns => contains ns ":" = false /\ contains ns "|" = false
     | None => s.2 <> "" /\ contains s.2 ":" = false
     end.

(** What the host lists below the root [r] of a hierarchy of joints: full
    paths made of segment names below [r], in which the root path does not
    occur a second time, and with every joint its parent, unless that is
    the root. *)
Record joints_below (r : string) (child_joints : list string) : Prop := {
  below_paths :
    forall c, c ∈ child_joints ->
      exists segments,
        segments <> [] /\ Forall segment segments
        /\ c = r +:+ full_path segments
        /\ contains (full_path segments) r = false;
  below_closed :
    forall segments s,
      segments <> [] ->
      Forall segment (segments ++ [s]) ->
      r +:+ full_path (segments ++ [s]) ∈ child_joints ->
      r +:+ full_path segments ∈ child_joints
}.

(** The same, for the joints given by their segments below the root. *)
Definition joint_paths (r : string) (below : list (list string)) : list string :=
  map (fun segments => r +:+ full_path segments) below.

(** The part of [_bake] in front of the bake call, and the part behind
    it, for the values read from the panel. *)
Definition before_bake (target : string) : Prog unit :=
  skin_node ← get_related_skin_node target;
  if truthy skin_node then call (SkinCluster_unbind skin_node) else mret tt.

Definition after_bake (target : string) : Prog unit :=
  skin_node ← get_related_skin_node target;
  skin_data ← get_skin_data skin_node target;
  call (SkinCluster_unbind skin_node);;
  let skin_data :=
    {| influence_objects := remap_influences (influence_objects skin_data);
       weilghts := weilghts skin_data |} in
  bound ← call (SkinCluster_bind (influence_objects skin_data ++ [target]));
  skin_node ← lift (item0 bound);
  set_skin skin_data skin_node;;
  cleanup.

(** ** More of the module: namespacing and rebinding *)

(** [add_namespace_to_full_path] *)
Definition add_namespace_to_full_path (namespace full_path_name : string) : string :=
  let namespace :=
    if negb (String.eqb namespace "") then namespace +:+ ":" else namespace in
  join "|" (map (fun n => namespace +:+ n) (slice_from_1 (split "|" full_path_name))).

(** Body of the loop of [rebind_skin] over the influences. *)
Definition rebind_step (namespace root_joint_path : string)
    (influence_objects : list string) (influence_path : string) : Prog (list string) :=
  current_path ← lift (build_path_from_root influence_path root_joint_path);
  let current_path := add_namespace_to_full_path namespace current_path in
  mret (influence_objects ++ [current_path]).

(** [rebind_skin] *)
Definition rebind_skin (skin_data : Skin) (geom namespace root_joint_path : string) :
    Prog unit :=
  influence_objects ←
    for_fold (rebind_step namespace root_joint_path) [] (influence_objects skin_data);
  bound ← call (SkinCluster_bind (influence_objects ++ [geom]));
  skin_node ← lift (item0 bound);
  set_skin skin_data skin_node.

(** The loop of [rebind_skin] as a function of the paths collected so far
    and the influences still to visit. *)
Fixpoint rebind_paths (namespace root_joint_path : string)
    (influence_objects : list string) (influences : list string) : result (list string) :=
  match influences with
  | [] => Ok influence_objects
  | influence_path :: rest =>
      current_path ← build_path_from_root influence_path root_joint_path;
      rebind_paths namespace root_joint_path
        (influence_objects ++ [add_namespace_to_full_path namespace current_path]) rest
  end.

(** What [add_namespace_to_full_path] puts in front of every segment. *)
Definition qualifier (namespace : string) : string :=
  if negb (String.eqb namespace "") then namespace +:+ ":" else namespace.

(** A namespace name: not empty, without the separators of paths and of
    namespaces. *)
Definition namespace_name (ns : string) : Prop :=
  ns <> "" /\ contains ns ":" = false /\ contains ns "|" = false.

(** ** Auxiliary definitions for the further properties *)

(** The scene [v] with another answer to the list-relatives query. *)
Definition relisted (v : SceneView) (relatives : string -> option (list string)) :
    SceneView :=
  {| sv_ls := sv_ls v;
     sv_relatives := relatives;
     sv_xform := sv_xform v;
     sv_attr3 := sv_attr3 v;
     sv_attr_int := sv_attr_int v;
     sv_attr_double := sv_attr_double v |}.

(** Two answers of the list-relatives query that list the same joints,
    in any order. *)
Definition same_listing (a b : option (list string)) : Prop :=
  match a, b with
  | Some l, Some l' => l ≡ₚ l'
  | None, None => True
  | _, _ => False
  end.

(** *** A host for rebinding: the vertex counts of the meshes and the
        bindings of a scene.

    Creating a binding for the objects [influences ++ [mesh]] adds a
    binding under the name [fresh], which must be free, on that mesh, with
    the influences in the order given and the initial weights [seed] gives
    them (the host's own heuristic); it returns the name in a one-element
    list. The calls on a binding are answered as by [skin_handler]. *)
Definition beside {X V B : Type} (vertices : V) (r : result (X * B)) : result (X * (V * B)) :=
  (fun xs => (xs.1, (vertices, xs.2))) <$> r.

Definition rig_handler (seed : list string -> nat -> list (list float)) (fresh : string) :
    handler (gmap string nat * gmap string SkinCluster) :=
  fun c st =>
    match c as c0 return result (resp c0 * (gmap string nat * gmap string SkinCluster)) with
    | SkinCluster_bind objects =>
        match objects, st.1 !! List.last objects "", st.2 !! fresh with
        | _ :: _, Some vertex_count, None =>
            Ok ([fresh],
                (st.1,
                 <[fresh := {| sc_geom := List.last objects "";
                               sc_influences := removelast objects;
                               sc_weights := seed (removelast objects) vertex_count |}]>
                   st.2))
        | _, _, _ => Raise RuntimeError
        end
    | other => beside st.1 (skin_handler other st.2)
    end.

(** The initial weights are a matrix of the right shape. *)
Definition seed_wf (seed : list string -> nat -> list (list float)) : Prop :=
  forall influences vertex_count,
    length (seed influences vertex_count) = vertex_count
    /\ Forall (fun row => length row = length influences) (seed influences vertex_count).

(** Extract binding [n1] from its mesh, then rebind the value to the mesh
    [geom2] under a namespace, as the build action does. *)
Definition extract_then_rebind (n1 geom1 geom2 namespace root_joint_path : string) :
    Prog unit :=
  skin_data ← get_skin_data (Node n1) geom1;
  rebind_skin skin_data geom2 namespace root_joint_path.

(** A seed that gives every vertex to the first influence. *)
Definition first_influence_seed (influences : list string) (vertex_count : nat) :
    list (list float) :=
  replicate vertex_count
    (match influences with
     | [] => []
     | _ :: rest => 1%float :: replicate (length rest) 0%float
     end).

Definition demo_rig : gmap string nat * gmap string SkinCluster :=
  ({[ "proximity_bake:source" := 4%nat ]},
   {[ "skinCluster1" :=
        {| sc_geom := "|source";
           sc_influences := ["|rig|root"; "|rig|root|spine"; "|rig|root|spine|head"];
           sc_weights := [[1; 0; 0]; [0.5; 0.5; 0]; [0; 1; 0]; [0; 0; 1]]%float |} ]}).

(** *** Read-only view of the construction history of the meshes: what
        [mc.listHistory] and [mc.nodeType] return. *)

Record History : Type := mkHistory {
  hist_nodes : string -> option (list string);
  hist_type : string -> string
}.

Definition history_handler (v : History) : handler unit :=
  fun c s =>
    match c as c0 return result (resp c0 * unit) with
    | ListHistory geom => Ok (hist_nodes v geom, s)
    | NodeType node => Ok (hist_type v node, s)
    | _ => Raise RuntimeError
    end.

(** A mesh whose history holds a tweak node in front of two skinClusters. *)
Definition demo_history : History :=
  {| hist_nodes := fun geom =>
       if String.eqb geom "|geo|body"
       then Some ["bodyShape"; "tweak1"; "skinCluster1"; "skinCluster7"; "bodyShapeOrig"]
       else if String.eqb geom "|geo|prop" then Some ["propShape"]
       else None;
     hist_type := fun node =>
       if String.prefix "skinCluster" node then "skinCluster"
       else if String.prefix "tweak" node then "tweak"
       else "mesh" |}.

(** The calls that take something out of the scene, and the call that
    writes weights. *)
Definition removal (c : cmd) : bool :=
  match c with
  | Delete _ | Namespace_rm _ => true
  | _ => false
  end.

Definition is_setWeights (c : cmd) : bool :=
  match c with
  | Skin_setWeights _ _ _ _ _ => true
  | _ => false
  end.

(** The namespaces a run asked the host to remove, in order. *)
Definition removed_namespaces (l : list cmd) : list string :=
  omap (fun c => match c with Namespace_rm ns => Some ns | _ => None end) l.

(** Along every path of the program, no call that satisfies [Q] is made
    until a call that satisfies [P] has been made. *)
Inductive not_before {A} (P Q : cmd -> Prop) : Prog A -> Prop :=
| not_before_ret a : not_before P Q (Ret a)
| not_before_throw e : not_before P Q (Throw e)
| not_before_open c k : ~ Q c -> P c -> not_before P Q (Call c k)
| not_before_step c k :
    ~ Q c -> (forall x, not_before P Q (k x)) -> not_before P Q (Call c k).

(** A host that answers every call, for a scene in which every mesh has
    the construction history [history]. *)
Definition answering_handler (history : option (list string)) : handler unit :=
  fun c s =>
    match c as c0 return result (resp c0 * unit) with
    | Ls_long p => Ok ([p], s)
    | Ls_all => Ok (["persp"; "proximity_bake:root"; "body"], s)
    | ListRelatives_ad_joint p => Ok (Some [p +:+ "|tip"], s)
    | Xform_q_ws_t _ | GetAttr_double3 _ => Ok ((0, 0, 0)%float, s)
    | GetAttr_int _ => Ok (0%Z, s)
    | GetAttr_double _ => Ok (1%float, s)
    | ListHistory _ => Ok (history, s)
    | NodeType _ => Ok ("skinCluster", s)
    | NamespaceInfo_lon_r => Ok (["UI"; "shared"; "proximity_bake:shapes"], s)
    | SkinCluster_bind _ => Ok (["skinCluster2"], s)
    | TextField_q_tx source_geom_tfbg => Ok ("|geo|source", s)
    | TextField_q_tx root_tfbg => Ok ("|rig|root", s)
    | TextField_q_tx target_geom_tfbg => Ok ("|geo|body", s)
    | IntField_q_v1 => Ok (10%Z, s)
    | Skin_influenceObjects _ => Ok (["|proximity_bake:root"], s)
    | Skin_getWeights _ _ => Ok ([1; 1]%float, s)
    | Skin_outputGeometry _ => Ok ("|geo|body", s)
    | Delete _ | Namespace_rm _ | SkinCluster_unbind _ | BakeDeformer _ _ _ _ _
    | Skin_setWeights _ _ _ _ _ => Ok (tt, s)
    end.

(** A workspace with namespaces nested under the scope. *)
Definition nested_workspace : Workspace :=
  {| ws_nodes := {["persp"; "proximity_bake:rig:root"]};
     ws_namespaces :=
       {["UI"; "proximity_bake"; "proximity_bake:rig"; "proximity_bake:rig:left"]} |}.

(** ** The build phase

    The host calls of the build phase: the calls [Cmd c] of the functions
    above, and the calls that create, rename, move and inspect nodes. *)

Inductive build_cmd : Type :=
| Cmd (c : cmd)
| CreateNode_joint (n : string)               (* mc.createNode("joint", n=n) *)
| Xform_ws_t (node : string) (t : vec3)       (* mc.xform(node, ws=True, t=t) *)
| Parent (child parent : string)              (* mc.parent(child, parent) *)
| Parent_w (child : string)                   (* mc.parent(child, w=True) *)
| SetAttr_double3 (plug : string) (v : vec3)  (* mc.setAttr(plug, *v) *)
| SetAttr_int (plug : string) (v : Z)         (* mc.setAttr(plug, v) *)
| SetAttr_double (plug : string) (v : float)  (* mc.setAttr(plug, v) *)
| Duplicate_rr (geom : string)                (* mc.duplicate(geom, rr=True) *)
| Rename (node new_name : string)             (* mc.rename(node, new_name) *)
| ListRelatives_p (node : string)             (* mc.listRelatives(node, p=True) *)
| ListRelatives_s (node : string)             (* mc.listRelatives(node, s=True) *)
| GetAttr_bool (plug : string)                (* mc.getAttr(plug) *)
| Delete_node (node : string)                 (* mc.delete(node) *)
| Select_r (node : string)                    (* mc.select(node, r=True) *)
| ProximityWrap_create                        (* mc.proximityWrap() *)
| ProximityWrap_addDrivers (wrap_node : string) (drivers : list string)
                                              (* mc.proximityWrap(wrap_node, edit=True, addDrivers=drivers) *)
| Namespace_set (ns : string).                (* mc.namespace(set=ns) *)

Definition build_resp (c : build_cmd) : Type :=
  match c with
  | Cmd c => resp c
  | CreateNode_joint _ | Rename _ _ => string
  | Duplicate_rr _ | ProximityWrap_create => list string
  | ListRelatives_p _ | ListRelatives_s _ => option (list string)
  | GetAttr_bool _ => bool
  | Xform_ws_t _ _ | Parent _ _ | Parent_w _ | SetAttr_double3 _ _ | SetAttr_int _ _
  | SetAttr_double _ _ | Delete_node _ | Select_r _ | ProximityWrap_addDrivers _ _
  | Namespace_set _ => unit
  end.

Inductive Build (A : Type) : Type :=
| BRet (a : A)
| BThrow (e : exn)
| BCall (c : build_cmd) (k : build_resp c -> Build A).
Arguments BRet {A} a.
Arguments BThrow {A} e.
Arguments BCall {A} c k.

Fixpoint build_bind_def {A B} (f : A -> Build B) (p : Build A) : Build B :=
  match p with
  | BRet a => f a
  | BThrow e => BThrow e
  | BCall c k => BCall c (fun x => build_bind_def f (k x))
  end.

#[global] Instance build_ret : MRet Build := fun _ a => BRet a.
#[global] Instance build_bind : MBind Build := fun _ _ f p => build_bind_def f p.

Definition bcall (c : build_cmd) : Build (build_resp c) := BCall c BRet.

Definition blift {A} (r : result A) : Build A :=
  match r with
  | Ok a => BRet a
  | Raise e => BThrow e
  end.

(** [for x in l: body(x)] *)
Fixpoint bfor_each {A} (l : list A) (body : A -> Build unit) : Build unit :=
  match l with
  | [] => mret tt
  | x :: l' => body x;; bfor_each l' body
  end.

(** A function of the sections above, called from the build phase. *)
Fixpoint host {A} (p : Prog A) : Build A :=
  match p with
  | Ret a => BRet a
  | Throw e => BThrow e
  | Call c k => BCall (Cmd c) (fun x => host (k x))
  end.

Definition build_handler (S : Type) : Type :=
  forall c : build_cmd, S -> result (build_resp c * S).

Fixpoint build_run {S A} (h : build_handler S) (p : Build A) (s : S) : result (A * S) :=
  match p with
  | BRet a => Ok (a, s)
  | BThrow e => Raise e
  | BCall c k =>
      match h c s with
      | Ok (x, s') => build_run h (k x) s'
      | Raise e => Raise e
      end
  end.

Fixpoint build_trace {S A} (h : build_handler S) (p : Build A) (s : S) : list build_cmd :=
  match p with
  | BRet _ | BThrow _ => []
  | BCall c k =>
      c :: match h c s with
           | Ok (x, s') => build_trace h (k x) s'
           | Raise _ => []
           end
  end.

(** Body of the loop of [build_skeleton]. *)
Definition build_joint (namespace : string) (joint : Joint) : Build unit :=
  joint_name ← bcall (CreateNode_joint (namespace +:+ ":" +:+ name joint));
  bcall (Xform_ws_t joint_name (world_position joint));;
  match parent_path joint with
  | Some parent_path =>
      bcall (Parent joint_name (add_namespace_to_full_path namespace parent_path))
  | None => mret tt
  end;;
  bcall (SetAttr_double3 (joint_name +:+ ".r") (rotate joint));;
  bcall (SetAttr_double3 (joint_name +:+ ".jo") (joint_orient joint));;
  bcall (SetAttr_int (joint_name +:+ ".ro") (rotate_order joint));;
  bcall (SetAttr_double (joint_name +:+ ".radi") (radius joint)).

(** [build_skeleton] *)
Definition build_skeleton (data : list Joint) (namespace : string) : Build unit :=
  bfor_each data (build_joint namespace).

(** Body of the loop of [dup_and_clean_geom] over the shapes. *)
Definition clean_shape (shape : string) : Build unit :=
  intermediate ← bcall (GetAttr_bool (shape +:+ ".intermediateObject"));
  if intermediate : bool then bcall (Delete_node shape) else mret tt.

(** [dup_and_clean_geom] *)
Definition dup_and_clean_geom (geom_path namespace : string) : Build string :=
  dupped ← bcall (Duplicate_rr geom_path);
  dupped_geom ← blift (item0 dupped);
  let new_name := namespace +:+ ":" +:+ item_last (split "|" geom_path) in
  dupped_geom ← bcall (Rename dupped_geom new_name);
  parents ← bcall (ListRelatives_p dupped_geom);
  match parents with
  | Some (_ :: _) => bcall (Parent_w dupped_geom)
  | _ => mret tt
  end;;
  shapes ← bcall (ListRelatives_s dupped_geom);
  match shapes with
  | None | Some [] => mret dupped_geom
  | Some shapes => bfor_each shapes clean_shape;; mret dupped_geom
  end.

(** [SkinBaker._build] *)
Definition _build : Build unit :=
  source_geom ← host (call (TextField_q_tx source_geom_tfbg));
  root_joint ← host (call (TextField_q_tx root_tfbg));
  target_geom ← host (call (TextField_q_tx target_geom_tfbg));
  source_skin_node ← host (get_related_skin_node source_geom);
  skeleton ← host (get_skeleton_data root_joint);
  skin_data ← host (get_skin_data source_skin_node source_geom);
  build_skeleton skeleton NAMESPACE;;
  dupped_source ← dup_and_clean_geom source_geom NAMESPACE;
  host (rebind_skin skin_data dupped_source NAMESPACE root_joint);;
  dupped_target ← dup_and_clean_geom target_geom NAMESPACE;
  bcall (Select_r dupped_target);;
  wrap ← bcall ProximityWrap_create;
  wrap_node ← blift (item0 wrap);
  bcall (ProximityWrap_addDrivers wrap_node [dupped_source]);;
  bcall (Namespace_set ":").

(** The calls of the build phase that only ask the host for a value. *)
Definition asks_only (c : build_cmd) : bool :=
  match c with
  | Cmd (Delete _) | Cmd (Namespace_rm _) | Cmd (SkinCluster_unbind _)
  | Cmd (SkinCluster_bind _) | Cmd (BakeDeformer _ _ _ _ _)
  | Cmd (Skin_setWeights _ _ _ _ _) => false
  | Cmd _ | ListRelatives_p _ | ListRelatives_s _ | GetAttr_bool _ => true
  | _ => false
  end.

(** A host of the build phase that leaves every call of the functions
    above to [h]. *)
Definition on_cmds {S} (h : build_handler S) : handler S := fun c => h (Cmd c).

(** The host names the joints it creates as it is asked to. *)
Definition names_as_asked {S} (h : build_handler S) : Prop :=
  forall n s x s', h (CreateNode_joint n) s = Ok (x, s') -> x = n.

(** A host that answers every call of the build phase: the calls of the
    functions above as [answering_handler] does, the others with the name
    asked for, no parent, no shape. *)
Definition answering_build_handler (history : option (list string)) : build_handler unit :=
  fun c s =>
    match c as c0 return result (build_resp c0 * unit) with
    | Cmd c => answering_handler history c s
    | CreateNode_joint n => Ok (n, s)
    | Rename _ new_name => Ok (new_name, s)
    | Duplicate_rr geom => Ok ([geom +:+ "1"], s)
    | ProximityWrap_create => Ok (["proximityWrap1"], s)
    | ListRelatives_p _ | ListRelatives_s _ => Ok (None, s)
    | GetAttr_bool _ => Ok (false, s)
    | Xform_ws_t _ _ | Parent _ _ | Parent_w _ | SetAttr_double3 _ _ | SetAttr_int _ _
    | SetAttr_double _ _ | Delete_node _ | Select_r _ | ProximityWrap_addDrivers _ _
    | Namespace_set _ => Ok (tt, s)
    end.

(** The calls [build_skeleton] makes for one joint when the host names the
    joint as asked. *)
Definition joint_calls (namespace : string) (joint : Joint) : list build_cmd :=
  let joint_name := namespace +:+ ":" +:+ name joint in
  [CreateNode_joint joint_name; Xform_ws_t joint_name (world_position joint)]
  ++ match parent_path joint with
     | Some parent_path =>
         [Parent joint_name (add_namespace_to_full_path namespace parent_path)]
     | None => []
     end
  ++ [SetAttr_double3 (joint_name +:+ ".r") (rotate joint);
      SetAttr_double3 (joint_name +:+ ".jo") (joint_orient joint);
      SetAttr_int (joint_name +:+ ".ro") (rotate_order joint);
      SetAttr_double (joint_name +:+ ".radi") (radius joint)].

(** *** Read-only view of a mesh being duplicated: what the host answers
        to the calls of [dup_and_clean_geom]. Unparenting and deleting
        return nothing. *)

Record DupView : Type := mkDupView {
  dv_duplicate : string -> list string;
  dv_rename : string -> string -> string;
  dv_parents : string -> option (list string);
  dv_shapes : string -> option (list string);
  dv_flag : string -> bool
}.

Definition dup_handler (v : DupView) : build_handler unit :=
  fun c s =>
    match c as c0 return result (build_resp c0 * unit) with
    | Duplicate_rr geom => Ok (dv_duplicate v geom, s)
    | Rename node new_name => Ok (dv_rename v node new_name, s)
    | ListRelatives_p node => Ok (dv_parents v node, s)
    | ListRelatives_s node => Ok (dv_shapes v node, s)
    | GetAttr_bool plug => Ok (dv_flag v plug, s)
    | Parent_w _ | Delete_node _ => Ok (tt, s)
    | _ => Raise RuntimeError
    end.

(** The nodes a run deleted one by one, in order. *)
Definition deleted_nodes (l : list build_cmd) : list string :=
  omap (fun c => match c with Delete_node x => Some x | _ => None end) l.

(** A mesh under a group, with its shape and the intermediate shape a
    deformer left behind; the duplicate comes out as [body1] and takes the
    name it is given. *)
Definition demo_dup : DupView :=
  {| dv_duplicate := fun geom => [item_last (split "|" geom) +:+ "1"];
     dv_rename := fun _ new_name => new_name;
     dv_parents := fun _ => Some ["geo"];
     dv_shapes := fun node =>
       Some [node +:+ "|bodyShape"; node +:+ "|bodyShapeOrig"];
     dv_flag := fun plug =>
       String.eqb plug "proximity_bake:body|bodyShapeOrig.intermediateObject" |}.

(** ** Facts about the Python primitives *)

Section strings.

Implicit Types (s t a b sep : string) (c : Ascii.ascii).

Lemma app_cons c a b : String c a +:+ b = String c (a +:+ b).
Proof. reflexivity. Qed.

Lemma app_empty_l a : "" +:+ a = a.
Proof. reflexivity. Qed.

Lemma app_assoc_str a b t : (a +:+ b) +:+ t = a +:+ (b +:+ t).
Proof. induction a as [|c a IH]; [done|]. by rewrite !app_cons, IH. Qed.

Lemma length_app_str a b :
  String.length (a +:+ b) = (String.length a + String.length b)%nat.
Proof. induction a as [|c a IH]; [done|]. rewrite app_cons. simpl. by rewrite IH. Qed.

Lemma app_inv_tail_str a b t : a +:+ t = b +:+ t -> a = b.
Proof.
  revert b. induction a as [|c a IH]; intros [|d b] H; try done.
  - apply (f_equal String.length) in H. rewrite !length_app_str in H.
    simpl in H. lia.
  - apply (f_equal String.length) in H. rewrite !length_app_str in H.
    simpl in H. lia.
  - rewrite !app_cons in H. injection H as -> H. f_equal. by apply IH.
Qed.

Lemma prefix_app a b : String.prefix a (a +:+ b) = true.
Proof.
  induction a as [|c a IH]; [by destruct b|].
  rewrite app_cons. simpl. by destruct (Ascii.ascii_dec c c).
Qed.

Lemma prefix_inv a s : String.prefix a s = true -> exists b, s = a +:+ b.
Proof.
  revert s. induction a as [|c a IH]; intros s H.
  - by exists s.
  - destruct s as [|d s]; [done|]. simpl in H.
    destruct (Ascii.ascii_dec c d) as [->|]; [|done].
    destruct (IH _ H) as [b ->]. by exists b.
Qed.

Lemma prefix_iff a s : String.prefix a s = true <-> exists b, s = a +:+ b.
Proof. split; [apply prefix_inv|]. intros [b ->]. apply prefix_app. Qed.

Lemma prefix_length a s :
  String.prefix a s = true -> (String.length a <= String.length s)%nat.
Proof. intros [b ->]%prefix_inv. rewrite length_app_str. lia. Qed.

(** *** [split] *)

Lemma split_go_nonempty sep k s : split_go sep k s <> [].
Proof.
  revert k. induction s as [|c s IH]; intros k; [done|]. cbn [split_go].
  destruct k; [|apply IH].
  destruct (String.prefix sep (String c s)); [done|].
  unfold cons_hd. by destruct (split_go sep 0 s).
Qed.

Lemma split_go_skip sep a rest :
  split_go sep (String.length a) (a +:+ rest) = split_go sep 0 rest.
Proof.
  induction a as [|c a IH]; [by destruct rest|].
  rewrite app_cons. cbn [split_go String.length]. apply IH.
Qed.

(** A separator in front gives an empty first piece and is consumed. *)
Lemma split_at_sep sep rest :
  sep <> "" -> split sep (sep +:+ rest) = "" :: split sep rest.
Proof.
  intros Hsep. destruct sep as [|c sep]; [done|]. unfold split.
  rewrite app_cons.
  change (split_go (String c sep) 0 (String c (sep +:+ rest)))
    with (if String.prefix (String c sep) (String c (sep +:+ rest))
          then "" :: split_go (String c sep) (String.length (String c sep) - 1) (sep +:+ rest)
          else cons_hd c (split_go (String c sep) 0 (sep +:+ rest))).
  rewrite <-app_cons, prefix_app. simpl String.length.
  replace (S (String.length sep) - 1)%nat with (String.length sep) by lia.
  by rewrite split_go_skip.
Qed.

(** No separator in front: the first character goes to the first piece. *)
Lemma split_no_sep sep c s :
  String.prefix sep (String c s) = false ->
  split sep (String c s) = cons_hd c (split sep s).
Proof. intros H. unfold split. cbn [split_go]. by rewrite H. Qed.

Lemma join_cons sep x y l : join sep (x :: y :: l) = x +:+ sep +:+ join sep (y :: l).
Proof. reflexivity. Qed.

Lemma join_cons_hd sep c l :
  l <> [] -> join sep (cons_hd c l) = String c (join sep l).
Proof. destruct l as [|h [|h' t]]; done. Qed.

(** [sep.join(s.split(sep)) == s] *)
Lemma join_split sep s : sep <> "" -> join sep (split sep s) = s.
Proof.
  intros Hsep.
  remember (String.length s) as n eqn:Hn.
  revert s Hn. induction n as [n IH] using lt_wf_ind. intros s ->.
  destruct s as [|c s]; [done|].
  destruct (String.prefix sep (String c s)) eqn:Hp.
  - apply prefix_inv in Hp as [rest Hr]. rewrite Hr, split_at_sep by done.
    pose proof (split_go_nonempty sep 0 rest) as Hne.
    assert (Hlen : (String.length rest < String.length (String c s))%nat).
    { rewrite Hr, length_app_str. destruct sep; [done|]. simpl. lia. }
    specialize (IH _ Hlen rest eq_refl). unfold split in *.
    destruct (split_go sep 0 rest) as [|h t] eqn:E; [done|].
    by rewrite join_cons, IH.
  - rewrite split_no_sep by done.
    rewrite join_cons_hd by apply split_go_nonempty.
    f_equal. apply (IH (String.length s)); [simpl; lia|done].
Qed.

(** *** Single-character separators *)

Lemma contains_cons s sub c :
  contains (String c s) sub = String.prefix sub (String c s) || contains s sub.
Proof. reflexivity. Qed.

Lemma contains_empty_sub s : contains s "" = true.
Proof. by destruct s. Qed.

Lemma split_not_contained sep s : contains s sep = false -> split sep s = [s].
Proof.
  induction s as [|c s IH]; intros H.
  - destruct sep; [done|]. done.
  - rewrite contains_cons in H. apply orb_false_iff in H as [Hp Hc].
    rewrite split_no_sep by done. by rewrite IH.
Qed.

Lemma prefix_char_false c d s : c <> d -> String.prefix (String c "") (String d s) = false.
Proof. intros. simpl. by destruct (Ascii.ascii_dec c d). Qed.

Lemma contains_char_cons c d s :
  contains (String d s) (String c "") = false <-> c <> d /\ contains s (String c "") = false.
Proof.
  rewrite contains_cons, orb_false_iff. simpl String.prefix.
  destruct (Ascii.ascii_dec c d) as [->|Hne].
  - split; [intros [H _]; by destruct s|by intros [? _]].
  - tauto.
Qed.

Lemma contains_char_app c a b :
  contains (a +:+ b) (String c "") = false <->
  contains a (String c "") = false /\ contains b (String c "") = false.
Proof.
  induction a as [|d a IH].
  - rewrite app_empty_l. split; [by intros ->|by intros [_ ->]].
  - rewrite app_cons, !contains_char_cons, IH. tauto.
Qed.

(** The piece in front of the first separator character. *)
Lemma split_char_app c a b :
  contains a (String c "") = false ->
  split (String c "") (a +:+ String c b) = a :: split (String c "") b.
Proof.
  induction a as [|d a IH]; intros H.
  - rewrite app_empty_l. by apply (split_at_sep (String c "") b).
  - apply contains_char_cons in H as [Hne H].
    rewrite app_cons, split_no_sep by by apply prefix_char_false.
    by rewrite IH.
Qed.

(** [sep.join(l).split(sep) == l] for pieces without the separator. *)
Lemma split_join_char c l :
  l <> [] ->
  Forall (fun x => contains x (String c "") = false) l ->
  split (String c "") (join (String c "") l) = l.
Proof.
  intros Hne Hl. induction Hl as [|x l Hx Hl IH]; [done|].
  destruct l as [|y l].
  - by apply split_not_contained.
  - rewrite join_cons, app_cons, app_empty_l, split_char_app by done.
    by rewrite IH.
Qed.

Lemma split_char_pieces c s :
  Forall (fun x => contains x (String c "") = false) (split (String c "") s).
Proof.
  unfold split. induction s as [|d s IH]; [by repeat constructor|].
  cbn [split_go]. destruct (String.prefix (String c "") (String d s)) eqn:Hp.
  - constructor; [done|]. apply IH.
  - simpl in Hp. destruct (Ascii.ascii_dec c d) as [->|Hne]; [by destruct s|].
    pose proof (split_go_nonempty (String c "") 0 s) as Hs.
    destruct (split_go (String c "") 0 s) as [|h t]; [done|].
    apply Forall_cons in IH as [Hh Ht]. constructor; [|done].
    by apply contains_char_cons.
Qed.

Lemma item_last_split_char c s : contains (item_last (split (String c "") s)) (String c "") = false.
Proof.
  pose proof (split_char_pieces c s) as H.
  pose proof (split_go_nonempty (String c "") 0 s) as Hne. fold (split (String c "") s) in Hne.
  unfold item_last.
  rewrite (app_removelast_last "" Hne) in H.
  apply Forall_app in H as [_ H]. exact (Forall_inv H).
Qed.

End strings.

(** *** [sorted] *)

Section sorting.

Context {A : Type} (le : A -> A -> bool).

Let R (x y : A) : Prop := le x y = true.

Lemma insert_sorted_perm x l : insert_sorted le x l ≡ₚ x :: l.
Proof.
  induction l as [|y l IH]; [done|]. simpl.
  destruct (le x y); [done|]. by rewrite IH, Permutation_swap.
Qed.

Lemma sorted_by_perm l : sorted_by le l ≡ₚ l.
Proof.
  induction l as [|x l IH]; [done|]. simpl.
  by rewrite insert_sorted_perm, IH.
Qed.

Hypothesis le_total : forall x y, le x y = true \/ le y x = true.
Hypothesis le_trans : forall x y z, le x y = true -> le y z = true -> le x z = true.

Lemma insert_sorted_sorted x l :
  StronglySorted R l -> StronglySorted R (insert_sorted le x l).
Proof.
  induction 1 as [|y l Hl IH Hy]; simpl.
  - by repeat constructor.
  - destruct (le x y) eqn:Hxy.
    + constructor; [by constructor|]. constructor; [done|].
      eapply Forall_impl; [exact Hy|]. intros z Hz. by eapply le_trans.
    + constructor; [done|].
      rewrite insert_sorted_perm. constructor; [|done].
      destruct (le_total x y) as [H|H]; [congruence|done].
Qed.

Lemma sorted_by_sorted l : StronglySorted R (sorted_by le l).
Proof.
  induction l as [|x l IH]; [constructor|]. simpl. by apply insert_sorted_sorted.
Qed.

End sorting.

Lemma StronglySorted_weaken {A} (R1 R2 : A -> A -> Prop) l :
  (forall x y, R1 x y -> R2 x y) -> StronglySorted R1 l -> StronglySorted R2 l.
Proof.
  intros HR. induction 1 as [|x l Hl IH Hx]; constructor; [done|].
  eapply Forall_impl; [exact Hx|]. intros y. apply HR.
Qed.

Lemma sorted_len_desc_perm l : sorted_len_desc l ≡ₚ l.
Proof. apply sorted_by_perm. Qed.

(** Longest names first: no name is followed by a longer one. *)
Lemma sorted_len_desc_sorted l :
  StronglySorted (fun x y => String.length y <= String.length x)%nat (sorted_len_desc l).
Proof.
  unfold sorted_len_desc.
  eapply StronglySorted_weaken;
    [|apply sorted_by_sorted].
  - intros x y H. by apply Nat.leb_le in H.
  - intros x y. rewrite !Nat.leb_le. lia.
  - intros x y z. rewrite !Nat.leb_le. lia.
Qed.

(** ** Facts about programs and runs *)

Section runs.

Context {S : Type} (h : handler S).

Lemma bind_call {A B} c (k : resp c -> Prog A) (f : A -> Prog B) :
  Call c k ≫= f = Call c (fun x => k x ≫= f).
Proof. reflexivity. Qed.

Lemma run_bind {A B} (p : Prog A) (f : A -> Prog B) s :
  run h (p ≫= f) s =
  match run h p s with
  | Ok (a, s') => run h (f a) s'
  | Raise e => Raise e
  end.
Proof.
  revert s. induction p as [a|e|c k IH]; intros s; try done.
  rewrite bind_call. simpl. destruct (h c s) as [[x s']|e]; [apply IH|done].
Qed.

Lemma trace_bind {A B} (p : Prog A) (f : A -> Prog B) s :
  trace h (p ≫= f) s =
  trace h p s ++
  match run h p s with
  | Ok (a, s') => trace h (f a) s'
  | Raise e => []
  end.
Proof.
  revert s. induction p as [a|e|c k IH]; intros s; try done.
  rewrite bind_call. simpl. f_equal.
  destruct (h c s) as [[x s']|e]; [apply IH|done].
Qed.

Lemma run_call c s :
  run h (call c) s = h c s.
Proof. simpl. by destruct (h c s) as [[x s']|e]. Qed.

Lemma trace_call c s : trace h (call c) s = [c].
Proof. simpl. by destruct (h c s) as [[x s']|e]. Qed.

Lemma trace_call_bind {B} c (f : resp c -> Prog B) s :
  trace h (call c ≫= f) s =
  c :: match h c s with
       | Ok (x, s') => trace h (f x) s'
       | Raise _ => []
       end.
Proof. reflexivity. Qed.

Lemma run_call_bind {B} c (f : resp c -> Prog B) s :
  run h (call c ≫= f) s =
  match h c s with
  | Ok (x, s') => run h (f x) s'
  | Raise e => Raise e
  end.
Proof. reflexivity. Qed.

Lemma run_ret {A} (a : A) s : run h (mret a) s = Ok (a, s).
Proof. reflexivity. Qed.

Lemma run_lift {A} (r : result A) s :
  run h (lift r) s = (fun a => (a, s)) <$> r.
Proof. by destruct r. Qed.

Lemma run_for_each_cons {A} (x : A) l body s :
  run h (for_each (x :: l) body) s =
  match run h (body x) s with
  | Ok (_, s') => run h (for_each l body) s'
  | Raise e => Raise e
  end.
Proof.
  unfold for_each. cbn [for_fold]. rewrite run_bind.
  by destruct (run h (body x) s) as [[[] s']|e].
Qed.

End runs.

(** ** The namespace workspace *)

Section workspace.

Implicit Types (w : Workspace) (l : list string) (n x : string).

Lemma scoped_inside n x : scoped n -> inside n x = true -> scoped x.
Proof.
  unfold scoped, inside, startswith. intros Hn Hx.
  apply prefix_inv in Hn as [r ->]. apply prefix_inv in Hx as [t ->].
  apply prefix_iff. exists (r +:+ ":" +:+ t). by rewrite !app_assoc_str.
Qed.

Lemma inside_longer n x :
  inside n x = true -> (String.length n < String.length x)%nat.
Proof.
  unfold inside, startswith. intros H. apply prefix_length in H.
  rewrite length_app_str in H. simpl in H. lia.
Qed.

Lemma existsb_elements_false (f : string -> bool) (X : gset string) :
  (forall x, x ∈ X -> f x = false) -> existsb f (elements X) = false.
Proof.
  intros H. apply not_true_is_false. intros (x & Hx & Hf)%existsb_exists.
  apply list_elem_of_In, elem_of_elements in Hx. rewrite H in Hf; done.
Qed.

(** The removal loop of [cleanup] on a list that holds every namespace
    under the scope, longest first: every removal is accepted. *)
Lemma remove_namespaces_run l w :
  NoDup l ->
  StronglySorted (fun a b => String.length b <= String.length a)%nat l ->
  (forall n, n ∈ l <-> n ∈ ws_namespaces w /\ scoped n) ->
  (forall x, x ∈ ws_nodes w -> ~ scoped x) ->
  run workspace_handler (for_each l (fun ns => call (Namespace_rm ns))) w =
  Ok (tt, {| ws_nodes := ws_nodes w;
             ws_namespaces := ws_namespaces w ∖ list_to_set l |}).
Proof.
  intros Hnd Hs. revert w.
  induction Hs as [|n l Hs IH Hn]; intros w Hl Hx.
  - simpl. destruct w as [N M]. simpl. do 3 f_equal.
    apply set_eq. intros x. rewrite elem_of_difference.
    pose proof (not_elem_of_empty (C := gset string) x). tauto.
  - apply NoDup_cons in Hnd as [Hnl Hnd].
    rewrite run_for_each_cons. cbn beta.
    rewrite (run_call workspace_handler (Namespace_rm n)).
    cbn [workspace_handler].
    assert (Hin : n ∈ ws_namespaces w /\ scoped n) by (apply Hl; left).
    destruct Hin as [Hin Hsc].
    rewrite (bool_decide_eq_true_2 _ Hin). cbn [andb].
    assert (He : namespace_empty w n = true).
    { unfold namespace_empty. rewrite !existsb_elements_false; [done| |].
      - intros m Hm. apply not_true_is_false. intros Hi.
        assert (Hml : m ∈ n :: l) by (apply Hl; eauto using scoped_inside).
        apply inside_longer in Hi.
        apply elem_of_cons in Hml as [->|Hml]; [lia|].
        rewrite Forall_forall in Hn. specialize (Hn m Hml). lia.
      - intros x Hxin. apply not_true_is_false. intros Hi.
        apply (Hx x Hxin). by eapply scoped_inside. }
    rewrite He. rewrite IH; [|done| |done].
    + cbn. do 3 f_equal. apply set_eq. intros x.
      rewrite !elem_of_difference, elem_of_union, !elem_of_singleton,
        !elem_of_list_to_set. tauto.
    + cbn. intros m. rewrite elem_of_difference, elem_of_singleton.
      specialize (Hl m). rewrite elem_of_cons in Hl.
      split.
      * intros Hm. assert (m <> n) by (intros ->; done). tauto.
      * intros [[Hm Hne] Hsm]. tauto.
Qed.

Lemma scoped_filter_elem l x :
  x ∈ List.filter (fun n => startswith n (NAMESPACE +:+ ":")) l <-> x ∈ l /\ scoped x.
Proof. rewrite !list_elem_of_In, filter_In. done. Qed.

(** What a run of [cleanup] does to a workspace: it never raises, and it
    leaves exactly the nodes and the namespaces whose names do not start
    with the scope prefix. *)
Lemma cleanup_run w :
  run workspace_handler cleanup w =
  Ok (tt, {| ws_nodes := filter (fun x => ~ scoped x) (ws_nodes w);
             ws_namespaces := filter (fun x => ~ scoped x) (ws_namespaces w) |}).
Proof.
  unfold cleanup. rewrite run_bind, (run_call _ Ls_all). cbn [workspace_handler].
  rewrite run_bind, (run_call _ (Delete _)). cbn [workspace_handler].
  rewrite run_bind, (run_call _ NamespaceInfo_lon_r).
  cbn [workspace_handler ws_namespaces ws_nodes].
  rewrite remove_namespaces_run.
  - cbn [ws_namespaces ws_nodes]. do 3 f_equal.
    + apply set_eq. intros x.
      rewrite elem_of_difference, elem_of_list_to_set, scoped_filter_elem,
        elem_of_filter, elem_of_elements. tauto.
    + apply set_eq. intros x.
      rewrite elem_of_difference, elem_of_list_to_set, sorted_len_desc_perm,
        scoped_filter_elem, elem_of_filter, elem_of_elements. tauto.
  - rewrite sorted_len_desc_perm. apply NoDup_ListNoDup, List.NoDup_filter,
      NoDup_ListNoDup, NoDup_elements.
  - apply sorted_len_desc_sorted.
  - intros n. cbn [ws_namespaces].
    by rewrite sorted_len_desc_perm, scoped_filter_elem, elem_of_elements.
  - cbn [ws_nodes]. intros x.
    rewrite elem_of_difference, elem_of_list_to_set, scoped_filter_elem,
      elem_of_elements. tauto.
Qed.

End workspace.

(** On every host, whatever it answers, the namespaces [cleanup] asks to
    remove have names under the scope prefix; the reserved namespace is
    not among them. *)
Lemma remove_loop_only_scoped {S} (h : handler S) (l : list string) (s : S) :
  Forall scoped l ->
  Forall removes_only_scoped
    (trace h (for_each l (fun ns => call (Namespace_rm ns))) s).
Proof.
  intros Hl. revert s. induction Hl as [|n l Hn Hl IH]; intros s; [constructor|].
  unfold for_each. cbn [for_fold]. rewrite trace_bind. apply Forall_app. split.
  - rewrite (trace_call h (Namespace_rm n)). by repeat constructor.
  - destruct (run h _ s) as [[[] s']|e]; [apply IH|constructor].
Qed.

Lemma cleanup_only_removes_scoped {S} (h : handler S) (s : S) :
  Forall removes_only_scoped (trace h cleanup s).
Proof.
  unfold cleanup. rewrite (trace_call_bind h Ls_all).
  constructor; [done|]. destruct (h Ls_all s) as [[all_nodes s1]|e]; [|constructor].
  rewrite (trace_call_bind h (Delete _)).
  constructor; [done|]. destruct (h (Delete _) s1) as [[[] s2]|e]; [|constructor].
  rewrite (trace_call_bind h NamespaceInfo_lon_r).
  constructor; [done|].
  destruct (h NamespaceInfo_lon_r s2) as [[all_namespaces s3]|e]; [|constructor].
  apply remove_loop_only_scoped. apply Forall_forall. intros n Hn.
  rewrite sorted_len_desc_perm in Hn. by apply scoped_filter_elem in Hn as [_ ?].
Qed.

Lemma cleanup_never_removes_reserved {S} (h : handler S) (s : S) :
  Namespace_rm NAMESPACE ∉ trace h cleanup s.
Proof.
  intros Hin. pose proof (cleanup_only_removes_scoped h s) as H.
  rewrite Forall_forall in H. by specialize (H _ Hin).
Qed.

(** ** Relative paths *)

(** Whenever [build_path_from_root] returns, the path starts with the
    separator and the root's short name. *)
Lemma build_path_from_root_start path root_path r :
  build_path_from_root path root_path = Ok r ->
  startswith r ("|" +:+ item_last (split "|" root_path)) = true.
Proof.
  unfold build_path_from_root. intros H.
  destruct (split_checked root_path path) as [parts|e]; [|done]. cbn in H.
  destruct (unpack2 parts) as [[a b]|e]; [|done]. cbn in H. injection H as <-.
  unfold startswith. rewrite <-app_assoc_str. apply prefix_app.
Qed.

(** It returns for a path below the root in whose remainder the root path
    does not occur again. *)
Lemma build_path_from_root_below root_path rest :
  contains rest root_path = false ->
  build_path_from_root (root_path +:+ rest) root_path =
  Ok ("|" +:+ item_last (split "|" root_path) +:+ rest).
Proof.
  intros H. unfold build_path_from_root, split_checked.
  destruct (decide (root_path = "")) as [->|Hne]; [by rewrite contains_empty_sub in H|].
  cbn. rewrite split_at_sep by done. rewrite (split_not_contained root_path rest) by done.
  reflexivity.
Qed.

(** ** Skeleton extraction on a view *)

Section skeleton.

Variable v : SceneView.

Lemma run_get_joint_data joint_path :
  run (view_handler v) (get_joint_data joint_path) tt = Ok (view_joint v joint_path, tt).
Proof. reflexivity. Qed.

Lemma run_skeleton_loop root child_joints data :
  run (view_handler v) (for_fold (skeleton_step root) data child_joints) tt =
  (fun l => (l, tt)) <$> view_children v root data child_joints.
Proof.
  revert data. induction child_joints as [|p rest IH]; intros data; [done|].
  cbn [for_fold view_children]. rewrite run_bind. unfold skeleton_step at 1.
  rewrite run_bind, run_get_joint_data, run_bind, run_lift.
  destruct (build_path_from_root p root) as [cur|e]; [|done].
  cbn. apply IH.
Qed.

(** Extraction on a view, in closed form. *)
Lemma extract_skeleton_eq root_name :
  extract_skeleton v root_name =
  match sv_ls v root_name with
  | [] => Raise IndexError
  | r :: _ =>
      child_joints ← sorted (sv_relatives v r);
      view_children v r [view_joint v r] child_joints
  end.
Proof.
  unfold extract_skeleton, get_skeleton_data.
  rewrite run_bind, (run_call _ (Ls_long root_name)). cbn [view_handler].
  rewrite run_bind, run_lift.
  destruct (sv_ls v root_name) as [|r found]; [done|]. cbn [item0 fmap result_fmap].
  rewrite run_bind, run_get_joint_data.
  rewrite run_bind, (run_call _ (ListRelatives_ad_joint r)). cbn [view_handler].
  rewrite run_bind, run_lift.
  destruct (sorted (sv_relatives v r)) as [child_joints|e]; [|done].
  cbn [fmap result_fmap mbind result_bind]. rewrite run_skeleton_loop.
  by destruct (view_children _ _ _ _).
Qed.

(** Whatever the loop returns extends the data it started from. *)
Lemma view_children_prefix root child_joints data l :
  view_children v root data child_joints = Ok l ->
  exists more, l = data ++ more /\ length more = length child_joints.
Proof.
  revert data. induction child_joints as [|p rest IH]; intros data H.
  - injection H as <-. exists []. by rewrite app_nil_r.
  - cbn [view_children] in H.
    destruct (build_path_from_root p root) as [cur|e]; [|done].
    cbn in H. apply IH in H as (more & -> & Hlen).
    eexists (_ :: more). rewrite <-app_assoc. split; [done|]. simpl. by rewrite Hlen.
Qed.

(** The loop does not depend on how names resolve. *)
Lemma view_children_resolving_to r root child_joints data :
  view_children (resolving_to v r) root data child_joints =
  view_children v root data child_joints.
Proof.
  revert data. induction child_joints as [|p rest IH]; intros data; [done|].
  cbn [view_children]. destruct (build_path_from_root p root); [|done].
  cbn. apply IH.
Qed.

End skeleton.

(** ** Skin bindings *)

Section skin.

Lemma array_of_app {A} (acc l : list A) :
  foldl (fun arr x => arr ++ [x]) acc l = acc ++ l.
Proof.
  revert acc. induction l as [|x l IH]; intros acc; simpl.
  - by rewrite app_nil_r.
  - by rewrite IH, <-app_assoc.
Qed.

Lemma array_of_id {A} (l : list A) : array_of l = l.
Proof. apply array_of_app. Qed.

(** Writing one weight per index [i, i+1, ...] replaces that stretch of
    the row. *)
Lemma write_row_seq (pre ws old : list float) :
  length old = length ws ->
  write_row (seq (length pre) (length ws)) ws (pre ++ old) = pre ++ ws.
Proof.
  revert pre old. induction ws as [|w ws IH]; intros pre old Hlen.
  - by destruct old.
  - destruct old as [|o old]; [done|]. injection Hlen as Hlen.
    unfold write_row in *. cbn [length seq zip zip_with foldl fst snd].
    replace (<[length pre:=w]> (pre ++ o :: old)) with ((pre ++ [w]) ++ old).
    + specialize (IH (pre ++ [w]) old Hlen).
      rewrite length_app in IH. cbn [length] in IH.
      replace (length pre + 1)%nat with (Datatypes.S (length pre)) in IH by lia.
      rewrite IH. by rewrite <-app_assoc.
    + rewrite <-app_assoc. symmetry.
      replace (length pre) with (length pre + 0)%nat at 1 by lia.
      by rewrite insert_app_r.
Qed.

Lemma write_row_all (ws row : list float) :
  length row = length ws -> write_row (seq 0 (length ws)) ws row = ws.
Proof. intros H. by apply (write_row_seq [] ws row). Qed.

(** A non-normalising write of a whole matrix against the indices
    [0 .. K-1] replaces every row. *)
Lemma write_rows_all K (new old : list (list float)) :
  Forall (fun row => length row = K) new ->
  Forall (fun row => length row = K) old ->
  length old = length new ->
  write_rows false (seq 0 K) (concat new) old = new.
Proof.
  intros Hnew. revert old. induction Hnew as [|r new Hr Hnew IH]; intros old Hold Hlen.
  - by destruct old.
  - destruct old as [|o old]; [done|]. injection Hlen as Hlen.
    apply Forall_cons in Hold as [Ho Hold].
    cbn [write_rows concat]. rewrite length_seq.
    rewrite take_app_length' by done. rewrite drop_app_length' by done.
    rewrite IH by done. f_equal.
    rewrite <-Hr. apply write_row_all. congruence.
Qed.

Lemma length_concat_uniform K (rows : list (list float)) :
  Forall (fun row => length row = K) rows ->
  length (concat rows) = (length rows * K)%nat.
Proof.
  induction 1 as [|r rows Hr _ IH]; [done|].
  cbn [concat length]. rewrite length_app, IH, Hr. lia.
Qed.

Lemma forallb_seq_lt K : forallb (fun i => i <? K)%nat (seq 0 K) = true.
Proof.
  apply forallb_forall. intros i Hi%in_seq. apply Nat.ltb_lt. lia.
Qed.

End skin.

(** ** Which host calls a program can make *)

Section calls.

Context (P : cmd -> Prop).

Lemma calls_only_bind {A B} (p : Prog A) (f : A -> Prog B) :
  calls_only P p -> (forall a, calls_only P (f a)) -> calls_only P (p ≫= f).
Proof.
  intros Hp Hf. induction Hp as [a|e|c k Hc Hk IH]; [apply Hf|constructor|].
  rewrite bind_call. by constructor.
Qed.

Lemma calls_only_one c : P c -> calls_only P (call c).
Proof. intros H. constructor; [done|]. intros x. constructor. Qed.

Lemma calls_only_lift {A} (r : result A) : calls_only P (lift r).
Proof. destruct r; constructor. Qed.

Lemma calls_only_for_fold {A B} (body : B -> A -> Prog B) acc l :
  (forall b x, calls_only P (body b x)) -> calls_only P (for_fold body acc l).
Proof.
  intros Hb. revert acc. induction l as [|x l IH]; intros acc; [constructor|].
  cbn [for_fold]. apply calls_only_bind; [apply Hb|apply IH].
Qed.

Lemma calls_only_trace {S A} (h : handler S) (p : Prog A) s :
  calls_only P p -> Forall P (trace h p s).
Proof.
  intros Hp. revert s. induction Hp as [a|e|c k Hc Hk IH]; intros s; try constructor; [done|].
  destruct (h c s) as [[x s']|e]; [apply IH|constructor].
Qed.

End calls.

Section bake.

Let quiet (c : cmd) : Prop := is_bakeDeformer c = false.

Lemma quiet_first_skin_cluster nodes : calls_only quiet (first_skin_cluster nodes).
Proof.
  induction nodes as [|n nodes IH]; [constructor|].
  cbn [first_skin_cluster].
  apply calls_only_bind; [by apply (calls_only_one _ (NodeType n))|].
  intros t. destruct (String.eqb t "skinCluster"); [constructor|done].
Qed.

Lemma quiet_get_related_skin_node geom : calls_only quiet (get_related_skin_node geom).
Proof.
  apply calls_only_bind; [by apply (calls_only_one _ (ListHistory geom))|].
  intros [[|n nodes]|];
    [constructor|apply quiet_first_skin_cluster|constructor].
Qed.

Lemma quiet_get_skin_data skin_node geom : calls_only quiet (get_skin_data skin_node geom).
Proof.
  destruct skin_node; try constructor; try done.
  intros infs. constructor; [done|]. intros ws. constructor.
Qed.

Lemma quiet_set_skin skin_data skin_node : calls_only quiet (set_skin skin_data skin_node).
Proof.
  constructor; [done|]. intros geom.
  by apply (calls_only_one _ (Skin_setWeights _ _ _ _ _)).
Qed.

Lemma quiet_cleanup : calls_only quiet cleanup.
Proof.
  constructor; [done|]. intros all_nodes.
  apply calls_only_bind; [by apply (calls_only_one _ (Delete _))|]. intros _.
  constructor; [done|]. intros all_namespaces.
  apply calls_only_for_fold. intros _ n. by apply (calls_only_one _ (Namespace_rm n)).
Qed.

Lemma filter_quiet (l : list cmd) : Forall quiet l -> List.filter is_bakeDeformer l = [].
Proof.
  induction 1 as [|c l Hc _ IH]; [done|]. simpl. by rewrite Hc.
Qed.

Lemma quiet_before_bake target : calls_only quiet (before_bake target).
Proof.
  apply calls_only_bind; [apply quiet_get_related_skin_node|].
  intros skin_node. destruct (truthy skin_node); [|constructor].
  by apply (calls_only_one _ (SkinCluster_unbind skin_node)).
Qed.

Lemma quiet_after_bake target : calls_only quiet (after_bake target).
Proof.
  apply calls_only_bind; [apply quiet_get_related_skin_node|]. intros skin_node.
  apply calls_only_bind; [apply quiet_get_skin_data|]. intros skin_data.
  apply calls_only_bind; [by apply (calls_only_one _ (SkinCluster_unbind skin_node))|].
  intros _. cbn zeta.
  apply calls_only_bind; [by apply (calls_only_one _ (SkinCluster_bind _))|].
  intros bound.
  apply calls_only_bind; [apply calls_only_lift|]. intros skin_node'.
  apply calls_only_bind; [apply quiet_set_skin|]. intros _.
  apply quiet_cleanup.
Qed.

(** The bake calls of a run of [_bake] from the state in which the three
    panel values have been read. *)
Lemma bake_calls_after_panel {S} (h : handler S) s3 root target mi :
  List.filter is_bakeDeformer
    (trace h (before_bake target ≫= fun _ =>
              call (bake_call root target mi) ≫= fun _ => after_bake target) s3) =
  if is_ok (run h (before_bake target) s3) then [bake_call root target mi] else [].
Proof.
  rewrite trace_bind, List.filter_app.
  rewrite (filter_quiet (trace h (before_bake target) s3))
    by apply calls_only_trace, quiet_before_bake.
  destruct (run h (before_bake target) s3) as [[[] s4]|e]; [|done].
  cbn [is_ok app]. rewrite trace_bind, List.filter_app.
  rewrite (trace_call h (bake_call root target mi)).
  cbn [List.filter is_bakeDeformer bake_call app]. f_equal.
  destruct (run h (call _) s4) as [[[] s5]|e]; [|done].
  apply filter_quiet, calls_only_trace, quiet_after_bake.
Qed.

Lemma run_before_bake {S} (h : handler S) target s :
  run h (before_bake target) s =
  match run h (get_related_skin_node target) s with
  | Ok (skin_node, s') =>
      if truthy skin_node then h (SkinCluster_unbind skin_node) s' else Ok (tt, s')
  | Raise e => Raise e
  end.
Proof.
  unfold before_bake. rewrite run_bind.
  destruct (run h (get_related_skin_node target) s) as [[skin_node s']|e]; [|done].
  destruct (truthy skin_node); [|done].
  apply (run_call h (SkinCluster_unbind skin_node)).
Qed.

End bake.

(** *** The namespaced root is never the root path itself *)

Lemma join_snoc sep init x :
  join sep (init ++ [x]) =
  match init with
  | [] => x
  | _ => join sep init +:+ sep +:+ x
  end.
Proof.
  induction init as [|y init IH]; [done|].
  destruct init as [|z init]; [done|].
  change ((y :: z :: init) ++ [x]) with (y :: (z :: init) ++ [x]).
  change ((z :: init) ++ [x]) with (z :: init ++ [x]) at 1.
  rewrite join_cons. change (z :: init ++ [x]) with ((z :: init) ++ [x]).
  rewrite IH, join_cons. by rewrite !app_assoc_str.
Qed.

(** A path ends with its last segment; what is in front is empty or ends
    with the separator. *)
Lemma last_segment_suffix s :
  exists pre,
    s = pre +:+ item_last (split "|" s) /\ (pre = "" \/ exists pre', pre = pre' +:+ "|").
Proof.
  pose proof (join_split "|" s) as Hj.
  pose proof (split_go_nonempty "|" 0 s) as Hne. fold (split "|" s) in Hne.
  unfold item_last.
  rewrite (app_removelast_last "" Hne) in Hj at 1.
  rewrite join_snoc in Hj.
  destruct (removelast (split "|" s)) as [|y init].
  - exists "". split; [by symmetry; apply Hj|by left].
  - exists (join "|" (y :: init) +:+ "|"). split; [|eauto].
    rewrite app_assoc_str. symmetry. by apply Hj.
Qed.

Lemma app_last_char a b c d : a +:+ String c "" = b +:+ String d "" -> c = d.
Proof.
  revert b. induction a as [|x a IH]; intros [|y b] H.
  - by injection H.
  - rewrite app_empty_l, app_cons in H. injection H as _ H. by destruct b.
  - rewrite app_empty_l, app_cons in H. injection H as _ H. by destruct a.
  - rewrite !app_cons in H. injection H as _ H. by eapply IH.
Qed.

Lemma namespaced_root_differs root :
  NAMESPACE +:+ ":" +:+ item_last (split "|" root) <> root.
Proof.
  destruct (last_segment_suffix root) as (pre & Hroot & Hpre). intros Heq.
  rewrite Hroot in Heq at 2.
  rewrite <-app_assoc_str in Heq. apply app_inv_tail_str in Heq.
  destruct Hpre as [->|[pre' ->]]; [done|].
  by apply (app_last_char NAMESPACE pre') in Heq.
Qed.

(** ** The remap of influence paths *)

Section remap.

Lemma split_full_path segments :
  Forall (fun p => contains p "|" = false) segments ->
  split "|" (full_path segments) = "" :: segments.
Proof.
  intros H. destruct segments as [|p segments]; [done|].
  unfold full_path.
  rewrite (split_at_sep "|" (join "|" (p :: segments))) by done.
  f_equal. by apply split_join_char.
Qed.

Lemma filter_segments segments :
  Forall (fun p => p <> "") segments ->
  List.filter (fun p => negb (String.eqb p "")) segments = segments.
Proof.
  induction 1 as [|p segments Hp _ IH]; [done|]. simpl.
  apply String.eqb_neq in Hp. by rewrite Hp, IH.
Qed.

(** The non-empty segments of a full path are its segments. *)
Lemma strip_parts_full_path segments :
  Forall segment segments ->
  strip_parts (full_path segments) = map strip_qualifier segments.
Proof.
  intros H. unfold strip_parts. rewrite split_full_path.
  - cbn [List.filter String.eqb negb]. f_equal. apply filter_segments.
    eapply Forall_impl; [exact H|]. by intros p [? _].
  - eapply Forall_impl; [exact H|]. by intros p [_ ?].
Qed.

(** A segment without a colon is mapped to the empty string. *)
Lemma strip_qualifier_unqualified p :
  contains p ":" = false -> strip_qualifier p = "".
Proof. intros H. unfold strip_qualifier. by rewrite split_not_contained. Qed.

(** A segment [ns:name] is mapped to [name]. *)
Lemma strip_qualifier_qualified ns nm :
  contains ns ":" = false -> strip_qualifier (ns +:+ ":" +:+ nm) = nm.
Proof.
  intros H. unfold strip_qualifier.
  change (":" +:+ nm) with (String ":"%char nm). rewrite split_char_app by done.
  cbn [slice_from_1 drop]. by apply join_split.
Qed.

Lemma qualify_segment s : qualified s -> segment (qualify s).
Proof.
  intros (_ & H1 & H2). unfold qualify. split.
  - by destruct (s.1).
  - apply contains_char_app. split; [done|].
    by apply (contains_char_app _ ":" (s.2)).
Qed.

Lemma remap_influence_qualified segments :
  Forall qualified segments ->
  remap_influence (qualified_path segments) = "*|" +:+ join "|" (map snd segments).
Proof.
  intros H. unfold remap_influence, qualified_path.
  rewrite strip_parts_full_path.
  - do 2 f_equal. rewrite map_map. apply map_ext_Forall.
    eapply Forall_impl; [exact H|]. intros s (Hs & _).
    by apply strip_qualifier_qualified.
  - apply Forall_map. eapply Forall_impl; [exact H|]. apply qualify_segment.
Qed.

End remap.

(** ** The order of an extracted skeleton *)

Section order.

Implicit Types (a b c r s : string) (l segments : list string).

Lemma compare_as_OT a b : String.compare a b = String_as_OT.compare a b.
Proof.
  revert b. induction a as [|x a IH]; intros [|y b]; cbn; rewrite ?IH; done.
Qed.

Lemma leb_spec a b : String.leb a b = true <-> a = b \/ String_as_OT.lt a b.
Proof.
  destruct String_as_OT.lt_strorder as [Hirr Htr].
  unfold String.leb. rewrite compare_as_OT.
  destruct (String_as_OT.compare_spec a b) as [H|H|H].
  - split; [by left|done].
  - split; [by right|done].
  - split; [done|]. intros [->|H'].
    + by destruct (Hirr b).
    + destruct (Hirr b). by apply (Htr b a b).
Qed.

Lemma leb_trans a b c :
  String.leb a b = true -> String.leb b c = true -> String.leb a c = true.
Proof.
  destruct String_as_OT.lt_strorder as [_ Htr].
  rewrite !leb_spec. intros [->|Hab] [->|Hbc]; auto.
  right. by apply (Htr a b c).
Qed.

(** A path sorts in front of the paths it is a prefix of. *)
Lemma leb_prefix a b : String.leb a (a +:+ b) = true.
Proof.
  unfold String.leb. induction a as [|x a IH]; [by destruct b|].
  rewrite app_cons. cbn. unfold Ascii.compare. rewrite N.compare_refl. apply IH.
Qed.

Lemma sorted_lookup_lt {A} (R : A -> A -> Prop) (xs : list A) i k x y :
  StronglySorted R xs -> (i < k)%nat -> xs !! i = Some x -> xs !! k = Some y -> R x y.
Proof.
  intros Hs. revert i k. induction Hs as [|z xs Hs IH Hz]; intros i k Hik Hi Hk; [done|].
  destruct k as [|k]; [lia|]. destruct i as [|i].
  - injection Hi as ->. rewrite Forall_forall in Hz. apply Hz.
    by eapply list_elem_of_lookup_2.
  - apply (IH i k); [lia|done|done].
Qed.

(** *** Paths as lists of segments *)

Lemma full_path_cons s segments :
  segments <> [] -> full_path (s :: segments) = "|" +:+ s +:+ full_path segments.
Proof. by destruct segments. Qed.

Lemma full_path_snoc segments s :
  segments <> [] -> full_path (segments ++ [s]) = full_path segments +:+ "|" +:+ s.
Proof.
  intros H. destruct segments as [|x segments]; [done|].
  unfold full_path. change ((x :: segments) ++ [s]) with (x :: segments ++ [s]).
  pose proof (join_snoc "|" (x :: segments) s) as Hj.
  change ((x :: segments) ++ [s]) with (x :: segments ++ [s]) in Hj.
  rewrite Hj. symmetry. apply app_assoc_str.
Qed.

(** Appending a separator and a segment name to a path appends the
    segment to its pieces. *)
Lemma split_snoc_segment a s :
  contains s "|" = false -> split "|" (a +:+ "|" +:+ s) = split "|" a ++ [s].
Proof.
  intros Hs.
  pose proof (split_go_nonempty "|" 0 a) as Hne. fold (split "|" a) in Hne.
  assert (Hj : join "|" (split "|" a ++ [s]) = a +:+ "|" +:+ s).
  { rewrite join_snoc. destruct (split "|" a) eqn:E; [done|].
    rewrite <-E. by rewrite (join_split "|" a). }
  rewrite <-Hj. apply split_join_char.
  - by destruct (split "|" a).
  - apply Forall_app. split; [apply split_char_pieces|by constructor].
Qed.

Lemma item_last_split_app a s :
  contains s "|" = false -> item_last (split "|" (a +:+ "|" +:+ s)) = s.
Proof.
  intros Hs. rewrite split_snoc_segment by done. apply last_last.
Qed.

(** *** The joints of a hierarchy *)

Variable v : SceneView.
Variable r : string.

Let short : string := item_last (split "|" r).

Lemma short_no_separator : contains short "|" = false.
Proof. apply item_last_split_char. Qed.

Lemma segments_no_separator segments :
  Forall segment segments -> Forall (fun p => contains p "|" = false) segments.
Proof. intros H. eapply Forall_impl; [exact H|]. by intros p [_ ?]. Qed.

(** The relative path of a joint below the root. *)
Lemma child_path segments s :
  contains (full_path (segments ++ [s])) r = false ->
  build_path_from_root (r +:+ full_path (segments ++ [s])) r =
  Ok (full_path (short :: segments ++ [s])).
Proof.
  intros H. rewrite build_path_from_root_below by done.
  rewrite full_path_cons; [done|]. by destruct segments.
Qed.

(** Dropping its last segment gives the relative path of the parent. *)
Lemma child_parent_path segments s :
  Forall segment (segments ++ [s]) ->
  join "|" (slice_to_m1 (split "|" (full_path (short :: segments ++ [s])))) =
  full_path (short :: segments).
Proof.
  intros H. rewrite split_full_path.
  - unfold slice_to_m1.
    change ("" :: short :: segments ++ [s]) with (("" :: short :: segments) ++ [s]).
    by rewrite removelast_last.
  - constructor; [apply short_no_separator|by apply segments_no_separator].
Qed.

Lemma child_name segments s :
  contains s "|" = false ->
  item_last (split "|" (r +:+ full_path (segments ++ [s]))) = s.
Proof.
  intros Hs. destruct (decide (segments = [])) as [->|Hne].
  - by apply (item_last_split_app r s).
  - rewrite full_path_snoc, <-app_assoc_str by done.
    by apply item_last_split_app.
Qed.

(** The loop of extraction returns one joint per child when every
    relative path can be computed. *)
Lemma view_children_ok child_joints data :
  (forall c, c ∈ child_joints -> is_ok (build_path_from_root c r) = true) ->
  exists more,
    view_children v r data child_joints = Ok (data ++ more)
    /\ length more = length child_joints
    /\ forall i c, child_joints !! i = Some c ->
         exists cur,
           build_path_from_root c r = Ok cur
           /\ more !! i =
              Some (set_parent_path (view_joint v c)
                      (join "|" (slice_to_m1 (split "|" cur)))).
Proof.
  revert data. induction child_joints as [|c rest IH]; intros data Hok.
  - exists []. by rewrite app_nil_r.
  - cbn [view_children].
    destruct (build_path_from_root c r) as [cur|e] eqn:Hc;
      [|by specialize (Hok c (list_elem_of_here _ _)); rewrite Hc in Hok].
    cbn.
    destruct (IH (data ++ [set_parent_path (view_joint v c)
                             (join "|" (slice_to_m1 (split "|" cur)))]))
      as (more & Hrun & Hlen & Hmore).
    { intros c' Hc'. apply Hok. by right. }
    eexists (_ :: more). split; [by rewrite Hrun, <-app_assoc|].
    split; [by cbn; rewrite Hlen|].
    intros [|i] c' Hi.
    + injection Hi as <-. by exists cur.
    + by apply Hmore.
Qed.

Lemma segments_snoc segments :
  segments <> [] -> exists init s, segments = init ++ [s].
Proof.
  intros H. destruct segments as [|x l] using rev_ind; [done|]. by exists l, x.
Qed.

(** A listed joint: its relative path, its parent's relative path and its
    name. *)
Lemma child_shape child_joints c :
  joints_below r child_joints ->
  c ∈ child_joints ->
  exists init s,
    c = r +:+ full_path (init ++ [s])
    /\ build_path_from_root c r = Ok (full_path (short :: init ++ [s]))
    /\ join "|" (slice_to_m1 (split "|" (full_path (short :: init ++ [s])))) =
       full_path (short :: init)
    /\ item_last (split "|" c) = s
    /\ (init <> [] -> r +:+ full_path init ∈ child_joints).
Proof.
  intros Hb Hc.
  destruct (below_paths _ _ Hb c Hc) as (segments & Hne & Hseg & -> & Hr).
  destruct (segments_snoc segments Hne) as (init & s & ->).
  exists init, s. split; [done|]. split; [by apply child_path|].
  split; [by apply child_parent_path|]. split.
  - apply child_name. apply Forall_app in Hseg as [_ Hs].
    apply Forall_inv in Hs. by destruct Hs.
  - intros Hi. by apply (below_closed _ _ Hb init s).
Qed.

(** A list of joints given by their segments below the root is such a
    listing when it holds the parent of each of its joints. *)
Lemma joints_below_paths (below : list (list string)) :
  Forall (fun segments =>
            segments <> [] /\ Forall segment segments
            /\ contains (full_path segments) r = false) below ->
  (forall segments s, segments <> [] -> segments ++ [s] ∈ below -> segments ∈ below) ->
  joints_below r (joint_paths r below).
Proof.
  intros Hall Hclosed. rewrite Forall_forall in Hall. split.
  - intros c (segments & -> & Hin)%list_elem_of_fmap.
    destruct (Hall _ Hin) as (Hne & Hseg & Hr). by exists segments.
  - intros segments s Hne Hseg (segments' & Heq & Hin)%list_elem_of_fmap.
    apply list_elem_of_fmap. exists segments. split; [done|].
    apply (Hclosed segments s Hne).
    destruct (Hall _ Hin) as (_ & Hseg' & _).
    apply String.app_inj in Heq.
    apply (f_equal (split "|")) in Heq.
    rewrite !split_full_path in Heq by by apply segments_no_separator.
    injection Heq as ->. done.
Qed.

(** The relative path of an extracted child joint. *)
Lemma child_joint_path init s c :
  item_last (split "|" c) = s ->
  joint_path_of (set_parent_path (view_joint v c) (full_path (short :: init))) =
  full_path (short :: init ++ [s]).
Proof.
  intros Hs. unfold joint_path_of. cbn [parent_path set_parent_path name view_joint].
  rewrite Hs. change (short :: init ++ [s]) with ((short :: init) ++ [s]).
  by rewrite full_path_snoc.
Qed.

(** Extraction on a hierarchy of joints returns the root first and every
    other joint behind its parent. *)
Lemma extraction_order root found child_joints :
  sv_ls v root = r :: found ->
  sv_relatives v r = Some child_joints ->
  joints_below r child_joints ->
  exists joints,
    extract_skeleton v root = Ok joints
    /\ joints !! 0%nat = Some (view_joint v r)
    /\ length joints = Datatypes.S (length child_joints)
    /\ forall i j, joints !! Datatypes.S i = Some j ->
         exists k p, (k <= i)%nat /\ joints !! k = Some p
                     /\ parent_path j = Some (joint_path_of p).
Proof.
  intros Hls Hrel Hb. rewrite extract_skeleton_eq, Hls, Hrel. cbn.
  set (cs := sorted_by String.leb child_joints).
  assert (Hperm : cs ≡ₚ child_joints) by apply sorted_by_perm.
  assert (Hsorted : StronglySorted (fun x y => String.leb x y = true) cs).
  { apply sorted_by_sorted; [apply String.leb_total|apply leb_trans]. }
  destruct (view_children_ok cs [view_joint v r]) as (more & Hrun & Hlen & Hmore).
  { intros c Hc. rewrite Hperm in Hc.
    destruct (child_shape _ _ Hb Hc) as (init & s & _ & Hcur & _). by rewrite Hcur. }
  exists ([view_joint v r] ++ more). split; [done|]. split; [done|].
  split; [by cbn; rewrite Hlen, Hperm|].
  intros i j Hj. change (more !! i = Some j) in Hj.
  assert (Hi : (i < length cs)%nat) by (rewrite <-Hlen; by eapply lookup_lt_Some).
  apply lookup_lt_is_Some in Hi as [c Hci].
  assert (Hcin : c ∈ child_joints) by (rewrite <-Hperm; by eapply list_elem_of_lookup_2).
  destruct (Hmore i c Hci) as (cur & Hcur & Hmi).
  destruct (child_shape _ _ Hb Hcin) as (init & s & Hc & Hcur' & Hpp & Hname & Hparent).
  assert (cur = full_path (short :: init ++ [s])) as -> by congruence.
  rewrite Hpp in Hmi.
  rewrite Hmi in Hj. injection Hj as <-. cbn [parent_path set_parent_path].
  destruct (decide (init = [])) as [->|Hinit].
  - exists 0%nat, (view_joint v r). split; [lia|]. split; [done|]. done.
  - specialize (Hparent Hinit).
    assert (Hpin : r +:+ full_path init ∈ cs) by by rewrite Hperm.
    apply list_elem_of_lookup in Hpin as [k Hk].
    destruct (Hmore k _ Hk) as (curp & Hcurp & Hmk).
    destruct (child_shape _ _ Hb Hparent) as (initp & sp & Hp & Hcurp' & Hppp & Hnamep & _).
    assert (curp = full_path (short :: initp ++ [sp])) as -> by congruence.
    rewrite Hppp in Hmk.
    assert (Hlt : (k < i)%nat).
    { assert (Hle : String.leb (r +:+ full_path init) c = true).
      { rewrite Hc, full_path_snoc, <-app_assoc_str by done. apply leb_prefix. }
      assert (Hne : r +:+ full_path init <> c).
      { rewrite Hc, full_path_snoc by done. intros Heq.
        apply (f_equal String.length) in Heq.
        rewrite !length_app_str in Heq. cbn in Heq. lia. }
      destruct (decide (k < i)%nat) as [|Hge]; [done|]. exfalso.
      destruct (decide (k = i)) as [->|Hki]; [congruence|].
      apply Hne, String.leb_antisym; [done|].
      apply (sorted_lookup_lt (fun x y => String.leb x y = true) cs i k);
        [done|lia|done|done]. }
    exists (Datatypes.S k), (set_parent_path (view_joint v (r +:+ full_path init))
                              (full_path (short :: initp))).
    split; [lia|]. split; [done|]. f_equal.
    rewrite (child_joint_path initp sp) by done.
    apply String.app_inj in Hp.
    rewrite (full_path_cons short (initp ++ [sp])) by by destruct initp.
    rewrite <-Hp. by destruct init.
Qed.

End order.

(** The example scene [root -> spine -> head], [root -> arm]: the joints
    come out root first, sorted by full path, each behind its parent. *)
Example spine_view_order :
  exists joints,
    extract_skeleton spine_view "root" = Ok joints
    /\ map joint_path_of joints = ["|root"; "|root|arm"; "|root|spine"; "|root|spine|head"]
    /\ forall i j, joints !! Datatypes.S i = Some j ->
         exists k p, (k <= i)%nat /\ joints !! k = Some p
                     /\ parent_path j = Some (joint_path_of p).
Proof.
  destruct (extraction_order spine_view "|rig|root" "root" []
              (joint_paths "|rig|root" [["spine"; "head"]; ["spine"]; ["arm"]]))
    as (joints & Hrun & _ & _ & Horder); [reflexivity|reflexivity| |].
  - apply joints_below_paths.
    + repeat constructor; done.
    + intros segments s Hne Hin.
      repeat (apply elem_of_cons in Hin as [Hin|Hin]);
        [| | |by apply elem_of_nil in Hin].
      * change ["spine"; "head"] with (["spine"] ++ ["head"]) in Hin.
        apply app_inj_tail in Hin as [-> _]. right. left.
      * change ["spine"] with ([] ++ ["spine"]) in Hin.
        by apply app_inj_tail in Hin as [-> _].
      * change ["arm"] with ([] ++ ["arm"]) in Hin.
        by apply app_inj_tail in Hin as [-> _].
  - exists joints. split; [done|]. split; [|done].
    assert (Hcompute : extract_skeleton spine_view "root" = Ok joints) by done.
    vm_compute in Hcompute. injection Hcompute as <-. reflexivity.
Qed.

(** ** The properties of the specification *)

(** *** Bake phase (step 7) *)

(** C1 as the specification states it does not hold: for the panel values
    root [|rig|root], target [|geo|body] and 10 influences, the one call
    made on the bake primitive passes the namespaced root joint
    [proximity_bake:root] as destination skeleton; the call with the real
    root joint as destination is never made. *)
Lemma bake_destination_skeleton_is_namespaced :
  List.filter is_bakeDeformer (trace panel_handler _bake demo_panel) =
    [BakeDeformer "proximity_bake:body" "proximity_bake:root" "|geo|body"
                  "proximity_bake:root" 10]
  /\ specified_bake_call "|rig|root" "|geo|body" 10 ∉ trace panel_handler _bake demo_panel.
Proof.
  split; [reflexivity|].
  intros H. vm_compute in H.
  repeat (apply elem_of_cons in H as [H|H]; [discriminate H|]).
  by apply elem_of_nil in H.
Qed.

(** C1, amended: on every host, once the bake action has read the root
    joint, the target mesh and the influence count from the panel, it calls
    the bake primitive exactly once if the unbinding of an existing target
    binding does not fail (and not at all otherwise), with the namespaced
    mesh named after the target as source mesh, the namespaced root joint
    as source skeleton, the real target mesh as destination mesh, the same
    namespaced root joint as destination skeleton, and the influence count
    read from the panel; the destination skeleton is never the root path
    itself. *)
Theorem bake_deformer_arguments {S} (h : handler S) (s s1 s2 s3 : S)
    (root target : string) (mi : Z) :
  h (TextField_q_tx root_tfbg) s = Ok (root, s1) ->
  h (TextField_q_tx target_geom_tfbg) s1 = Ok (target, s2) ->
  h IntField_q_v1 s2 = Ok (mi, s3) ->
  List.filter is_bakeDeformer (trace h _bake s) =
    (if is_ok (run h (before_bake target) s3) then [bake_call root target mi] else [])
  /\ bake_ds (bake_call root target mi) <> Some root.
Proof.
  intros Hroot Htarget Hmi. split.
  - unfold _bake.
    rewrite (trace_call_bind h (TextField_q_tx root_tfbg)), Hroot.
    rewrite (trace_call_bind h (TextField_q_tx target_geom_tfbg)), Htarget.
    cbn zeta. rewrite (trace_call_bind h IntField_q_v1), Hmi.
    cbn [List.filter is_bakeDeformer].
    rewrite <-(bake_calls_after_panel h s3 root target mi).
    f_equal. unfold before_bake.
    rewrite !trace_bind, !run_bind.
    destruct (run h (get_related_skin_node target) s3) as [[skin_node s4]|e];
      [|by rewrite !app_nil_r].
    rewrite <-app_assoc. f_equal. apply trace_bind.
  - cbn [bake_ds bake_call]. intros [= H]. by apply namespaced_root_differs in H.
Qed.

(** The bake action on the example panel. *)
Lemma bake_deformer_arguments_witness :
  List.filter is_bakeDeformer (trace panel_handler _bake demo_panel) =
    [bake_call "|rig|root" "|geo|body" 10]
  /\ bake_ds (bake_call "|rig|root" "|geo|body" 10) <> Some "|rig|root".
Proof.
  exact (bake_deformer_arguments panel_handler demo_panel demo_panel demo_panel
           demo_panel "|rig|root" "|geo|body" 10 eq_refl eq_refl eq_refl).
Defined.

(** *** Namespace workspace ([cleanup]) *)

(** C2 as the specification states it does not hold: in a workspace as a
    bake leaves it behind (the shadow joint and the shadow mesh under the
    scope, the reserved namespace created with them) [cleanup] never asks
    for the removal of the namespace [proximity_bake]; it deletes the two
    nodes and returns, and that namespace is still defined afterwards. *)
Lemma cleanup_leaves_reserved_namespace :
  (Namespace_rm "proximity_bake" ∉ trace workspace_handler cleanup used_workspace)
  /\ (exists w',
        run workspace_handler cleanup used_workspace = Ok (tt, w')
        /\ ws_nodes w' = {["persp"; "body"]}
        /\ "proximity_bake" ∈ ws_namespaces w').
Proof.
  split; [apply (cleanup_never_removes_reserved workspace_handler)|].
  eexists. split; [apply cleanup_run|]. cbn [ws_nodes ws_namespaces]. split.
  - apply (bool_decide_unpack _). vm_compute. exact I.
  - apply (bool_decide_unpack _). vm_compute. exact I.
Qed.

(** C2, amended: on every workspace [cleanup] returns, and afterwards the
    nodes left are exactly those whose name does not start with the scope
    prefix and the namespaces left are exactly those whose name does not
    start with it, whatever was created under the scope; the reserved
    namespace itself, whose name is not under the prefix, is defined
    afterwards if and only if it was before. *)
Theorem cleanup_removes_nested_scope (w : Workspace) :
  exists w',
    run workspace_handler cleanup w = Ok (tt, w')
    /\ (forall x, x ∈ ws_nodes w' <-> x ∈ ws_nodes w /\ ~ scoped x)
    /\ (forall n, n ∈ ws_namespaces w' <-> n ∈ ws_namespaces w /\ ~ scoped n)
    /\ (NAMESPACE ∈ ws_namespaces w' <-> NAMESPACE ∈ ws_namespaces w).
Proof.
  eexists. split; [apply cleanup_run|]. cbn [ws_nodes ws_namespaces].
  split; [|split].
  - intros x. rewrite elem_of_filter. tauto.
  - intros n. rewrite elem_of_filter. tauto.
  - rewrite elem_of_filter. split; [tauto|]. intros H. split; [|done]. by intros Hs.
Qed.

Lemma filter_unscoped_id (X : gset string) :
  set_Forall (fun x => ~ scoped x) X -> filter (fun x => ~ scoped x) X = X.
Proof.
  intros H. apply set_eq. intros x. rewrite elem_of_filter.
  split; [tauto|]. intros Hx. split; [by apply H|done].
Qed.

Lemma filter_unscoped_idemp (X : gset string) :
  filter (fun x => ~ scoped x) (filter (fun x => ~ scoped x) X) =
  filter (fun x => ~ scoped x) X.
Proof.
  apply filter_unscoped_id. intros x Hx. by apply elem_of_filter in Hx as [? _].
Qed.

(** C8: on every workspace [cleanup] returns without an error, running it
    twice leaves the same workspace as running it once, and when no node
    and no namespace has a name under the scope prefix it leaves the
    workspace as it is. *)
Theorem cleanup_idempotent (w : Workspace) :
  is_ok (run workspace_handler cleanup w) = true
  /\ run workspace_handler (cleanup ;; cleanup) w = run workspace_handler cleanup w
  /\ (set_Forall (fun x => ~ scoped x) (ws_nodes w) ->
      set_Forall (fun x => ~ scoped x) (ws_namespaces w) ->
      run workspace_handler cleanup w = Ok (tt, w)).
Proof.
  split; [by rewrite cleanup_run|]. split.
  - rewrite run_bind, !cleanup_run. cbn [ws_nodes ws_namespaces].
    by rewrite !filter_unscoped_idemp.
  - intros Hn Hs. rewrite cleanup_run, !filter_unscoped_id by done. by destruct w.
Qed.

(** A workspace with nothing under the scope. *)
Lemma cleanup_idempotent_witness :
  run workspace_handler cleanup clean_workspace = Ok (tt, clean_workspace).
Proof.
  destruct (cleanup_idempotent clean_workspace) as (_ & _ & H).
  apply H; apply (bool_decide_unpack _); vm_compute; exact I.
Defined.

(** *** Skin binding round trip *)

(** C3: extracting a binding from its mesh and applying the extracted
    value to a binding with the same influences in the same order, on a
    mesh with as many vertices, leaves that binding with exactly the
    weight matrix of the first: the write goes against the influence
    indices [0 .. K-1], without normalisation. *)
Theorem skin_round_trip (st : gmap string SkinCluster) (n1 n2 : string)
    (b1 b2 : SkinCluster) :
  st !! n1 = Some b1 ->
  st !! n2 = Some b2 ->
  skin_wf b1 ->
  skin_wf b2 ->
  sc_influences b2 = sc_influences b1 ->
  length (sc_weights b2) = length (sc_weights b1) ->
  run skin_handler (extract_then_apply n1 (sc_geom b1) n2) st =
  Ok (tt, <[n2 := {| sc_geom := sc_geom b2;
                     sc_influences := sc_influences b2;
                     sc_weights := sc_weights b1 |}]> st).
Proof.
  intros H1 H2 Hwf1 Hwf2 Hinf Hlen.
  destruct b2 as [geom2 infs2 rows2]. unfold skin_wf in Hwf2.
  cbn [sc_geom sc_influences sc_weights] in *. subst infs2.
  unfold extract_then_apply, get_skin_data, set_skin.
  rewrite run_bind, (run_call_bind skin_handler (Skin_influenceObjects n1)).
  cbn [skin_handler]. rewrite H1.
  rewrite (run_call_bind skin_handler (Skin_getWeights n1 (sc_geom b1))).
  cbn [skin_handler]. rewrite H1. rewrite decide_True by done. rewrite run_ret.
  rewrite (run_call_bind skin_handler (Skin_outputGeometry n2)).
  cbn [skin_handler]. rewrite H2. cbn [influence_objects weilghts].
  rewrite !array_of_id, (run_call skin_handler (Skin_setWeights _ _ _ _ _)).
  cbn [skin_handler]. rewrite H2. cbn [sc_geom sc_influences sc_weights].
  rewrite bool_decide_eq_true_2 by done.
  rewrite bool_decide_eq_true_2
    by (rewrite length_seq, Hlen; by apply length_concat_uniform).
  rewrite forallb_seq_lt. cbn [andb].
  by rewrite write_rows_all.
Qed.

(** The binding of the four-vertex mesh on [root -> spine -> head], applied
    to the binding of its namespaced duplicate. *)
Lemma skin_round_trip_witness :
  run skin_handler (extract_then_apply "skinCluster1" "|source" "skinCluster2") demo_skins =
  Ok (tt, <["skinCluster2" :=
            {| sc_geom := "|proximity_bake:source";
               sc_influences := ["|root"; "|root|spine"; "|root|spine|head"];
               sc_weights := [[1; 0; 0]; [0.5; 0.5; 0]; [0; 1; 0]; [0; 0; 1]]%float |}]>
          demo_skins).
Proof.
  apply (skin_round_trip demo_skins "skinCluster1" "skinCluster2"
           {| sc_geom := "|source";
              sc_influences := ["|root"; "|root|spine"; "|root|spine|head"];
              sc_weights := [[1; 0; 0]; [0.5; 0.5; 0]; [0; 1; 0]; [0; 0; 1]]%float |}
           {| sc_geom := "|proximity_bake:source";
              sc_influences := ["|root"; "|root|spine"; "|root|spine|head"];
              sc_weights := [[1; 0; 0]; [1; 0; 0]; [1; 0; 0]; [1; 0; 0]]%float |});
    try reflexivity; repeat constructor.
Defined.

(** *** Relative paths and skeleton extraction *)

(** C5 at the joint [|root|root_end] strictly inside the subtree of the
    root [|root]: the root path occurs twice in the joint path, the split
    yields three pieces, and the relative-path computation raises
    [ValueError] instead of returning a path. *)
Theorem build_path_from_root_repeated_root :
  startswith "|root|root_end" ("|root" +:+ "|") = true
  /\ split "|root" "|root|root_end" = [""; ""; "_end"]
  /\ build_path_from_root "|root|root_end" "|root" = Raise ValueError.
Proof. repeat split; reflexivity. Qed.

(** C4 at the hierarchy of the root [|root] with the single child
    [|root|root_end]: the root resolves, its descendants are listed and
    sorted, and extraction raises [ValueError] in the relative-path
    computation instead of returning the two joints. *)
Theorem extraction_fails_on_root_end :
  sv_ls root_end_view "root" = ["|root"]
  /\ sv_relatives root_end_view "|root" = Some ["|root|root_end"]
  /\ extract_skeleton root_end_view "root" = Raise ValueError.
Proof. repeat split; reflexivity. Qed.

(** C7 as the specification states it does not hold: in a scene where
    the name [root] resolves to the two joints [|a|root] and [|b|root],
    extraction returns the skeleton of the first one. *)
Lemma ambiguous_root_extracts_first_match :
  sv_ls two_roots_view "root" = ["|a|root"; "|b|root"]
  /\ (map (fun j => (name j, parent_path j)) <$> extract_skeleton two_roots_view "root")
     = Ok [("root", None); ("tip", Some "|root")].
Proof. split; reflexivity. Qed.

(** C7, amended: extraction raises [IndexError] when the root path
    resolves to no node. When it resolves to several nodes the ambiguity
    is not detected: the outcome, the skeleton returned or the exception
    raised, is the outcome in the scene where the path resolves to the
    first listed match alone. *)
Theorem extraction_resolves_to_first_match (v : SceneView) (root : string) :
  extract_skeleton v root =
  match sv_ls v root with
  | [] => Raise IndexError
  | r :: _ => extract_skeleton (resolving_to v r) root
  end.
Proof.
  rewrite extract_skeleton_eq. destruct (sv_ls v root) as [|r found]; [done|].
  rewrite extract_skeleton_eq. cbn [resolving_to sv_ls sv_relatives].
  destruct (sorted (sv_relatives v r)) as [child_joints|e]; [|done].
  cbn. symmetry. apply view_children_resolving_to.
Qed.

(** C9: when the root path resolves and the host answers the
    list-relatives query on the root with its empty sentinel, extraction
    raises [TypeError]; it does not return the one-element skeleton. *)
Theorem extraction_without_descendants (v : SceneView) (root r : string)
    (found : list string) :
  sv_ls v root = r :: found ->
  sv_relatives v r = None ->
  extract_skeleton v root = Raise TypeError.
Proof. intros Hls Hrel. by rewrite extract_skeleton_eq, Hls, Hrel. Qed.

(** A root joint without descendants. *)
Lemma extraction_without_descendants_witness :
  extract_skeleton lone_root_view "root" = Raise TypeError.
Proof.
  apply (extraction_without_descendants lone_root_view "root" "|root" []);
    reflexivity.
Defined.

(** A successful extraction had a list of descendants to sort, and returns
    the root followed by one joint per descendant. *)
Lemma extraction_success (v : SceneView) (root : string) (l : list Joint) :
  extract_skeleton v root = Ok l ->
  exists r found child_joints,
    sv_ls v root = r :: found
    /\ sv_relatives v r = Some child_joints
    /\ l !! 0%nat = Some (view_joint v r)
    /\ length l = Datatypes.S (length child_joints).
Proof.
  rewrite extract_skeleton_eq. destruct (sv_ls v root) as [|r found]; [done|].
  destruct (sv_relatives v r) as [child_joints|] eqn:Hrel; [|done]. cbn.
  intros H. apply view_children_prefix in H as (more & -> & Hlen).
  exists r, found, child_joints. repeat split; [done|].
  cbn. rewrite Hlen. f_equal.
  apply Permutation_length, sorted_by_perm.
Qed.

(** *** Remap phase (step 9) *)

(** C6: for raw influence paths whose segments are namespace-qualified,
    the remap produces, in the order of the raw influences, the pattern
    ["*|"] followed by the segment names without their qualifier, joined
    by ["|"]. *)
Theorem remap_qualified_influences (raw : list (list (string * string))) :
  Forall (Forall qualified) raw ->
  remap_influences (map qualified_path raw) =
  map (fun segments => "*|" +:+ join "|" (map snd segments)) raw.
Proof.
  intros H. unfold remap_influences. rewrite array_of_id, map_map.
  apply map_ext_Forall. eapply Forall_impl; [exact H|].
  intros segments. apply remap_influence_qualified.
Qed.

(** Two raw influences of a shadow skeleton. *)
Lemma remap_qualified_influences_witness :
  remap_influences ["|ns:root|ns:child"; "|ns:root"] = ["*|root|child"; "*|root"].
Proof.
  apply (remap_qualified_influences
           [[("ns", "root"); ("ns", "child")]; [("ns", "root")]]).
  repeat constructor.
Defined.

Lemma written_segment (s : raw_segment) : raw_segment_wf s -> segment (written s).
Proof.
  destruct s as [[ns|] nm]; unfold raw_segment_wf, written; cbn.
  - intros (Hnm & _ & Hns). split; [by destruct ns|].
    apply contains_char_app. split; [done|].
    by apply (contains_char_app _ ":" nm).
  - by intros (Hnm & Hne & _).
Qed.

Lemma strip_qualifier_written (s : raw_segment) :
  raw_segment_wf s -> strip_qualifier (written s) = without_first_component s.
Proof.
  destruct s as [[ns|] nm]; unfold raw_segment_wf, written, without_first_component; cbn.
  - intros (_ & Hns & _). by apply strip_qualifier_qualified.
  - intros (_ & _ & Hnm). by apply strip_qualifier_unqualified.
Qed.

(** C10: the qualifier stripping drops the first colon-separated component
    of every segment: of a segment [ns:name] the name is left, and a
    segment without a colon is mapped to the empty string. The pattern of
    a raw path is ["*|"] followed by what is left of each segment, joined
    by ["|"]; where the path has a segment without a qualifier, the
    pattern has the empty string at that position and not the segment's
    name. *)
Theorem remap_unqualified_segment (segments : list raw_segment) (i : nat) (p : string) :
  Forall raw_segment_wf segments ->
  segments !! i = Some (None, p) ->
  strip_qualifier p = ""
  /\ p <> ""
  /\ remap_influence (full_path (map written segments)) =
     "*|" +:+ join "|" (map without_first_component segments)
  /\ map without_first_component segments !! i = Some "".
Proof.
  intros Hs Hi.
  assert (Hp : raw_segment_wf (None, p)).
  { rewrite Forall_forall in Hs. apply Hs. by eapply list_elem_of_lookup_2. }
  destruct Hp as (_ & Hne & Hcolon). cbn in Hne, Hcolon.
  split; [by apply strip_qualifier_unqualified|]. split; [done|]. split.
  - unfold remap_influence. rewrite strip_parts_full_path.
    + do 2 f_equal. rewrite map_map. apply map_ext_Forall.
      eapply Forall_impl; [exact Hs|]. apply strip_qualifier_written.
    + apply Forall_map. eapply Forall_impl; [exact Hs|]. apply written_segment.
  - rewrite list_lookup_fmap. unfold raw_segment in *. by rewrite Hi.
Qed.

(** The path [|root|ns:child], whose first segment has no qualifier: the
    pattern is [*||child]. *)
Lemma remap_unqualified_segment_witness :
  strip_qualifier "root" = ""
  /\ "root" <> ""
  /\ remap_influence "|root|ns:child" = "*||child"
  /\ map without_first_component [(None, "root"); (Some "ns", "child")] !! 0%nat = Some "".
Proof.
  apply (remap_unqualified_segment [(None, "root"); (Some "ns", "child")] 0 "root");
    [repeat constructor; done|reflexivity].
Defined.

Example remap_unqualified_root : remap_influence "|root" = "*|".
Proof. reflexivity. Qed.

Example remap_unqualified_first : remap_influence "|root|ns:child" = "*||child".
Proof. reflexivity. Qed.

(** ** Namespacing of paths *)

Lemma add_namespace_segments ns segments :
  Forall (fun p => contains p "|" = false) segments ->
  add_namespace_to_full_path ns (full_path segments) =
  join "|" (map (fun n => qualifier ns +:+ n) segments).
Proof.
  intros H. unfold add_namespace_to_full_path. fold (qualifier ns).
  by rewrite split_full_path.
Qed.

Lemma qualifier_namespace_name ns : namespace_name ns -> qualifier ns = ns +:+ ":".
Proof.
  intros (Hne & _). unfold qualifier. apply String.eqb_neq in Hne. by rewrite Hne.
Qed.

(** X1: on a full path [|a|b|c] the namespacing puts the namespace and a
    colon (nothing, for the empty namespace) in front of every segment and
    joins the segments again, without a separator in front. *)
Theorem add_namespace_to_full_path_segments (namespace : string) (segments : list string) :
  Forall (fun p => contains p "|" = false) segments ->
  add_namespace_to_full_path namespace (full_path segments) =
  join "|" (map (fun n => (if String.eqb namespace "" then "" else namespace +:+ ":") +:+ n)
              segments).
Proof.
  intros H. rewrite add_namespace_segments by done. unfold qualifier.
  by destruct (String.eqb_spec namespace "") as [->|].
Qed.

(** The path [|root|spine] under the namespace [proximity_bake]. *)
Lemma add_namespace_to_full_path_segments_witness :
  add_namespace_to_full_path "proximity_bake" "|root|spine" =
  "proximity_bake:root|proximity_bake:spine".
Proof.
  apply (add_namespace_to_full_path_segments "proximity_bake" ["root"; "spine"]).
  repeat constructor.
Defined.

(** X2: the first piece of the path is always dropped, so a name without
    a separator (a short name instead of a full path) is mapped to the
    empty string. *)
Theorem add_namespace_to_full_path_short_name (namespace short_name : string) :
  contains short_name "|" = false ->
  add_namespace_to_full_path namespace short_name = "".
Proof.
  intros H. unfold add_namespace_to_full_path. by rewrite split_not_contained.
Qed.

Lemma add_namespace_to_full_path_short_name_witness :
  add_namespace_to_full_path "proximity_bake" "root" = "".
Proof. by apply add_namespace_to_full_path_short_name. Defined.

(** X3: the remap of the bake action undoes the namespacing of the build
    action: the full path made of the namespaced segments is remapped to
    the wildcard pattern of the segments themselves. *)
Theorem remap_of_namespaced_path (namespace : string) (segments : list string) :
  namespace_name namespace ->
  Forall segment segments ->
  remap_influence ("|" +:+ add_namespace_to_full_path namespace (full_path segments)) =
  "*|" +:+ join "|" segments.
Proof.
  intros Hns Hseg.
  rewrite add_namespace_segments by by apply segments_no_separator.
  rewrite (qualifier_namespace_name _ Hns).
  destruct segments as [|p segments]; [done|].
  set (pairs := map (fun n => (namespace, n)) (p :: segments)).
  assert (Hmap : map (fun n => (namespace +:+ ":") +:+ n) (p :: segments) =
                 map qualify pairs).
  { unfold pairs. rewrite map_map. apply map_ext. intros n.
    unfold qualify. cbn [fst snd]. apply app_assoc_str. }
  assert (Hsnd : map snd pairs = p :: segments).
  { unfold pairs. rewrite map_map. apply map_id. }
  rewrite Hmap, <-Hsnd.
  change ("|" +:+ join "|" (map qualify pairs)) with (qualified_path pairs).
  apply remap_influence_qualified.
  apply Forall_map. eapply Forall_impl; [exact Hseg|].
  intros n [_ Hn]. destruct Hns as (_ & H1 & H2). by repeat split.
Qed.

Lemma remap_of_namespaced_path_witness :
  remap_influence ("|" +:+ add_namespace_to_full_path "proximity_bake" "|root|spine") =
  "*|root|spine".
Proof.
  apply (remap_of_namespaced_path "proximity_bake" ["root"; "spine"]);
    repeat constructor; done.
Defined.

(** ** Relative paths *)

(** X4: for a path made of the root path and a remainder in which the
    root path does not occur again (the root itself included), the relative
    path is the separator, the root's short name and the remainder. *)
Theorem relative_path_below_root (root_path rest : string) :
  contains rest root_path = false ->
  build_path_from_root (root_path +:+ rest) root_path =
  Ok ("|" +:+ item_last (split "|" root_path) +:+ rest).
Proof. apply build_path_from_root_below. Qed.

Lemma relative_path_below_root_witness :
  build_path_from_root "|rig|root|spine|head" "|rig|root" = Ok "|root|spine|head".
Proof. by apply (relative_path_below_root "|rig|root" "|spine|head"). Defined.

(** X5: when the root path is empty, or does not occur in the path at all
    (a joint outside the root's hierarchy), the relative-path computation
    raises [ValueError]. *)
Theorem relative_path_outside_root (path root_path : string) :
  root_path = "" \/ contains path root_path = false ->
  build_path_from_root path root_path = Raise ValueError.
Proof.
  intros [->|H]; [done|].
  unfold build_path_from_root, split_checked.
  destruct (decide (root_path = "")) as [->|Hne]; [done|].
  cbn. by rewrite (split_not_contained root_path path).
Qed.

Lemma relative_path_outside_root_witness :
  build_path_from_root "|other|joint1" "|rig|root" = Raise ValueError.
Proof. apply relative_path_outside_root. by right. Defined.

(** ** More on skeleton extraction *)

(** X6: on a hierarchy of joints in whose paths the root path occurs once,
    extraction returns the root joint first, one joint per descendant, and
    every other joint behind the joint whose relative path is its
    [parent_path]. *)
Theorem skeleton_topological_order (v : SceneView) (r root : string)
    (found child_joints : list string) :
  sv_ls v root = r :: found ->
  sv_relatives v r = Some child_joints ->
  joints_below r child_joints ->
  exists joints,
    extract_skeleton v root = Ok joints
    /\ joints !! 0%nat = Some (view_joint v r)
    /\ length joints = Datatypes.S (length child_joints)
    /\ forall i j, joints !! Datatypes.S i = Some j ->
         exists k p, (k <= i)%nat /\ joints !! k = Some p
                     /\ parent_path j = Some (joint_path_of p).
Proof. apply extraction_order. Qed.

Lemma spine_paths_below :
  joints_below "|rig|root" (joint_paths "|rig|root" [["spine"; "head"]; ["spine"]; ["arm"]]).
Proof.
  apply joints_below_paths.
  - repeat constructor; done.
  - intros segments s Hne Hin.
    repeat (apply elem_of_cons in Hin as [Hin|Hin]);
      [| | |by apply elem_of_nil in Hin].
    + change ["spine"; "head"] with (["spine"] ++ ["head"]) in Hin.
      apply app_inj_tail in Hin as [-> _]. right. left.
    + change ["spine"] with ([] ++ ["spine"]) in Hin.
      by apply app_inj_tail in Hin as [-> _].
    + change ["arm"] with ([] ++ ["arm"]) in Hin.
      by apply app_inj_tail in Hin as [-> _].
Defined.

(** The scene [root -> spine -> head], [root -> arm]. *)
Lemma skeleton_topological_order_witness :
  exists joints,
    extract_skeleton spine_view "root" = Ok joints
    /\ joints !! 0%nat = Some (view_joint spine_view "|rig|root")
    /\ length joints = 4%nat
    /\ forall i j, joints !! Datatypes.S i = Some j ->
         exists k p, (k <= i)%nat /\ joints !! k = Some p
                     /\ parent_path j = Some (joint_path_of p).
Proof.
  apply (skeleton_topological_order spine_view "|rig|root" "root" []
           (joint_paths "|rig|root" [["spine"; "head"]; ["spine"]; ["arm"]]));
    [reflexivity|reflexivity|apply spine_paths_below].
Defined.

#[local] Instance leb_antisymm : AntiSymm eq (fun x y : string => String.leb x y = true).
Proof. intros x y. apply String.leb_antisym. Qed.

Lemma sorted_permutation (l l' : list string) :
  l ≡ₚ l' -> sorted_by String.leb l = sorted_by String.leb l'.
Proof.
  intros H.
  apply (StronglySorted_unique (fun x y : string => String.leb x y = true)).
  - apply sorted_by_sorted; [apply String.leb_total|apply leb_trans].
  - apply sorted_by_sorted; [apply String.leb_total|apply leb_trans].
  - by rewrite !sorted_by_perm.
Qed.

Lemma view_children_relisted v relatives root child_joints data :
  view_children (relisted v relatives) root data child_joints =
  view_children v root data child_joints.
Proof.
  revert data. induction child_joints as [|p rest IH]; intros data; [done|].
  cbn [view_children]. destruct (build_path_from_root p root); [|done].
  cbn. apply IH.
Qed.

(** X7: the order in which the host lists the descendants does not
    matter: two scenes that differ only in that order give the same
    skeleton, or the same exception. *)
Theorem skeleton_listing_order_irrelevant (v : SceneView)
    (relatives : string -> option (list string)) (root : string) :
  (forall p, same_listing (sv_relatives v p) (relatives p)) ->
  extract_skeleton (relisted v relatives) root = extract_skeleton v root.
Proof.
  intros H. rewrite !extract_skeleton_eq. cbn [relisted sv_ls sv_relatives].
  destruct (sv_ls v root) as [|r found]; [done|].
  specialize (H r). unfold same_listing in H.
  destruct (sv_relatives v r) as [l|], (relatives r) as [l'|]; try done.
  cbn. rewrite <-(sorted_permutation l l') by done.
  apply view_children_relisted.
Qed.

(** The example scene with its descendants listed in another order. *)
Lemma skeleton_listing_order_irrelevant_witness :
  extract_skeleton
    (relisted spine_view
       (fun p => if String.eqb p "|rig|root"
                 then Some ["|rig|root|arm"; "|rig|root|spine"; "|rig|root|spine|head"]
                 else sv_relatives spine_view p))
    "root" =
  extract_skeleton spine_view "root".
Proof.
  apply skeleton_listing_order_irrelevant. intros p.
  destruct (String.eqb_spec p "|rig|root") as [->|Hne].
  - exact (Permutation_rev ["|rig|root|spine|head"; "|rig|root|spine"; "|rig|root|arm"]).
  - unfold same_listing. by destruct (sv_relatives spine_view p).
Defined.

Lemma view_children_parents v root child_joints data l :
  view_children v root data child_joints = Ok l ->
  exists more,
    l = data ++ more
    /\ length more = length child_joints
    /\ Forall (fun j => is_Some (parent_path j)) more.
Proof.
  revert data. induction child_joints as [|p rest IH]; intros data H.
  - injection H as <-. exists []. by rewrite app_nil_r.
  - cbn [view_children] in H.
    destruct (build_path_from_root p root) as [cur|e]; [|done].
    cbn in H. apply IH in H as (more & -> & Hlen & Hall).
    eexists (_ :: more). rewrite <-app_assoc. split; [done|].
    split; [by cbn; rewrite Hlen|]. constructor; [by eexists|done].
Qed.

(** X8: a skeleton that extraction returns has exactly one joint without
    a parent path, the root joint in front, named by the last segment of
    the resolved root path; behind it comes one joint with a parent path
    for each descendant the host listed. *)
Theorem skeleton_single_root (v : SceneView) (root : string) (joints : list Joint) :
  extract_skeleton v root = Ok joints ->
  exists r found child_joints root_joint others,
    sv_ls v root = r :: found
    /\ sv_relatives v r = Some child_joints
    /\ joints = root_joint :: others
    /\ name root_joint = item_last (split "|" r)
    /\ parent_path root_joint = None
    /\ length others = length child_joints
    /\ Forall (fun j => is_Some (parent_path j)) others.
Proof.
  rewrite extract_skeleton_eq. destruct (sv_ls v root) as [|r found]; [done|].
  destruct (sv_relatives v r) as [child_joints|] eqn:Hrel; [|done]. cbn.
  intros H. apply view_children_parents in H as (more & -> & Hlen & Hall).
  exists r, found, child_joints, (view_joint v r), more.
  repeat split; try done.
  rewrite Hlen. apply Permutation_length, sorted_by_perm.
Qed.

Lemma skeleton_single_root_witness :
  exists r found child_joints root_joint others,
    sv_ls two_roots_view "root" = r :: found
    /\ sv_relatives two_roots_view r = Some child_joints
    /\ [view_joint two_roots_view "|a|root";
        set_parent_path (view_joint two_roots_view "|a|root|tip") "|root"]
       = root_joint :: others
    /\ name root_joint = item_last (split "|" r)
    /\ parent_path root_joint = None
    /\ length others = length child_joints
    /\ Forall (fun j => is_Some (parent_path j)) others.
Proof. by apply (skeleton_single_root two_roots_view "root"). Defined.

(** ** Rebinding *)

Lemma build_path_from_root_error path root_path e :
  build_path_from_root path root_path = Raise e -> e = ValueError.
Proof.
  unfold build_path_from_root, split_checked.
  destruct (decide (root_path = "")); [by intros [= <-]|]. cbn.
  destruct (split root_path path) as [|a [|b [|c l]]]; cbn; by intros [= <-].
Qed.

Section rebind.

Context {S : Type} (h : handler S).

Lemma run_rebind_loop ns root influences acc s :
  run h (for_fold (rebind_step ns root) acc influences) s =
  (fun l => (l, s)) <$> rebind_paths ns root acc influences.
Proof.
  revert acc. induction influences as [|p rest IH]; intros acc; [done|].
  cbn [for_fold rebind_paths]. rewrite run_bind. unfold rebind_step at 1.
  rewrite run_bind, run_lift.
  destruct (build_path_from_root p root) as [cur|e]; [|done].
  cbn. apply IH.
Qed.

Lemma trace_rebind_loop ns root influences acc s :
  trace h (for_fold (rebind_step ns root) acc influences) s = [].
Proof.
  revert acc. induction influences as [|p rest IH]; intros acc; [done|].
  cbn [for_fold]. rewrite trace_bind. unfold rebind_step at 1 2.
  rewrite trace_bind, run_bind, run_lift.
  destruct (build_path_from_root p root) as [cur|e]; [|done].
  cbn. apply IH.
Qed.

End rebind.

Lemma rebind_paths_fail ns root influences acc p :
  p ∈ influences ->
  is_ok (build_path_from_root p root) = false ->
  rebind_paths ns root acc influences = Raise ValueError.
Proof.
  intros Hin Hp. revert acc.
  induction influences as [|q rest IH]; intros acc; [by apply elem_of_nil in Hin|].
  cbn [rebind_paths].
  destruct (build_path_from_root q root) as [cur|e] eqn:Hq.
  - cbn. apply IH. apply elem_of_cons in Hin as [->|Hin]; [|done].
    by rewrite Hq in Hp.
  - by rewrite (build_path_from_root_error _ _ _ Hq).
Qed.

Lemma rebind_paths_below ns root rests acc :
  Forall (fun rest => contains rest root = false) rests ->
  rebind_paths ns root acc (map (fun rest => root +:+ rest) rests) =
  Ok (acc ++ map (fun rest =>
                    add_namespace_to_full_path ns
                      ("|" +:+ item_last (split "|" root) +:+ rest)) rests).
Proof.
  intros H. revert acc. induction H as [|rest rests Hr _ IH]; intros acc.
  - by rewrite app_nil_r.
  - cbn [map rebind_paths]. rewrite build_path_from_root_below by done.
    cbn. rewrite IH. by rewrite <-app_assoc.
Qed.

(** X9: when one influence of the binding cannot be made relative to the
    root, rebinding raises [ValueError] on every host before it has made
    any host call: no binding is created. *)
Theorem rebind_skin_bad_influence {S} (h : handler S) (s : S) (skin_data : Skin)
    (geom namespace root_joint_path influence_path : string) :
  influence_path ∈ influence_objects skin_data ->
  is_ok (build_path_from_root influence_path root_joint_path) = false ->
  run h (rebind_skin skin_data geom namespace root_joint_path) s = Raise ValueError
  /\ trace h (rebind_skin skin_data geom namespace root_joint_path) s = [].
Proof.
  intros Hin Hp. unfold rebind_skin.
  rewrite run_bind, trace_bind, run_rebind_loop, trace_rebind_loop.
  by rewrite (rebind_paths_fail _ _ _ _ _ Hin Hp).
Qed.

(** A binding with an influence outside the root's hierarchy, on the
    binding store. *)
Lemma rebind_skin_bad_influence_witness :
  run skin_handler
    (rebind_skin {| influence_objects := ["|rig|root"; "|other|joint1"];
                    weilghts := [1; 0]%float |}
       "proximity_bake:body" "proximity_bake" "|rig|root") demo_skins
  = Raise ValueError
  /\ trace skin_handler
       (rebind_skin {| influence_objects := ["|rig|root"; "|other|joint1"];
                       weilghts := [1; 0]%float |}
          "proximity_bake:body" "proximity_bake" "|rig|root") demo_skins
     = [].
Proof.
  apply (rebind_skin_bad_influence skin_handler demo_skins _ _ _ _ "|other|joint1").
  - right. left.
  - reflexivity.
Defined.

(** X10: when every influence is the root path followed by a remainder
    in which the root path does not occur again (the root itself
    included), rebinding asks the host for one binding of the namespaced
    relative paths of the influences, in their order, followed by the
    mesh, and applies the weights to the first binding the host returns;
    it raises [IndexError] when the host returns none. *)
Theorem rebind_skin_below_root {S} (h : handler S) (s : S) (skin_data : Skin)
    (geom namespace root_joint_path : string) (rests : list string) :
  influence_objects skin_data = map (fun rest => root_joint_path +:+ rest) rests ->
  Forall (fun rest => contains rest root_joint_path = false) rests ->
  let objects :=
    map (fun rest =>
           add_namespace_to_full_path namespace
             ("|" +:+ item_last (split "|" root_joint_path) +:+ rest)) rests
    ++ [geom] in
  run h (rebind_skin skin_data geom namespace root_joint_path) s =
    match h (SkinCluster_bind objects) s with
    | Ok ([], _) => Raise IndexError
    | Ok (skin_node :: _, s') => run h (set_skin skin_data skin_node) s'
    | Raise e => Raise e
    end
  /\ trace h (rebind_skin skin_data geom namespace root_joint_path) s =
     SkinCluster_bind objects ::
     match h (SkinCluster_bind objects) s with
     | Ok (skin_node :: _, s') => trace h (set_skin skin_data skin_node) s'
     | _ => []
     end.
Proof.
  intros Hinf Hrests objects. unfold rebind_skin.
  rewrite run_bind, trace_bind, run_rebind_loop, trace_rebind_loop, Hinf.
  rewrite rebind_paths_below by done. cbn [fmap result_fmap app].
  fold objects.
  rewrite (run_call_bind h (SkinCluster_bind objects)).
  rewrite (trace_call_bind h (SkinCluster_bind objects)).
  destruct (h (SkinCluster_bind objects) s) as [[[|skin_node bound] s']|e]; done.
Qed.

(** ** Rebinding and applying on the host models *)

Lemma write_row_stretch (pre ws old rest : list float) :
  length old = length ws ->
  write_row (seq (length pre) (length ws)) ws (pre ++ old ++ rest) = pre ++ ws ++ rest.
Proof.
  revert pre old. induction ws as [|w ws IH]; intros pre old Hlen.
  - by destruct old.
  - destruct old as [|o old]; [done|]. injection Hlen as Hlen.
    unfold write_row in *. cbn [length seq zip zip_with foldl fst snd].
    replace (<[length pre:=w]> (pre ++ (o :: old) ++ rest))
      with ((pre ++ [w]) ++ old ++ rest).
    + specialize (IH (pre ++ [w]) old Hlen).
      rewrite length_app in IH. cbn [length] in IH.
      replace (length pre + 1)%nat with (Datatypes.S (length pre)) in IH by lia.
      rewrite IH. by rewrite <-app_assoc.
    + rewrite <-app_assoc. symmetry.
      replace (length pre) with (length pre + 0)%nat at 1 by lia.
      by rewrite insert_app_r.
Qed.

(** Writing [K] weights against the indices [0 .. K-1] of a longer row
    keeps the rest of the row. *)
Lemma write_row_front (ws row : list float) :
  (length ws <= length row)%nat ->
  write_row (seq 0 (length ws)) ws row = ws ++ drop (length ws) row.
Proof.
  intros H. rewrite <-(take_drop (length ws) row) at 1.
  apply (write_row_stretch [] ws (take (length ws) row) (drop (length ws) row)).
  rewrite length_take. lia.
Qed.

Lemma write_rows_front K (new old : list (list float)) :
  Forall (fun row => length row = K) new ->
  Forall (fun row => K <= length row)%nat old ->
  length old = length new ->
  write_rows false (seq 0 K) (concat new) old =
  zip_with (fun n o => n ++ drop K o) new old.
Proof.
  intros Hnew. revert old. induction Hnew as [|r new Hr Hnew IH]; intros old Hold Hlen.
  - by destruct old.
  - destruct old as [|o old]; [done|]. injection Hlen as Hlen.
    apply Forall_cons in Hold as [Ho Hold].
    cbn [write_rows concat zip_with]. rewrite length_seq.
    rewrite take_app_length' by done. rewrite drop_app_length' by done.
    rewrite IH by done. f_equal.
    rewrite <-Hr. apply write_row_front. lia.
Qed.

Lemma forallb_seq_le K K' :
  (K <= K')%nat -> forallb (fun i => i <? K')%nat (seq 0 K) = true.
Proof.
  intros H. apply forallb_forall. intros i Hi%in_seq. apply Nat.ltb_lt. lia.
Qed.

Lemma set_skin_writes_front (st : gmap string SkinCluster) (skin_node : string)
    (b : SkinCluster) (skin_data : Skin) (rows : list (list float)) :
  st !! skin_node = Some b ->
  skin_wf b ->
  weilghts skin_data = concat rows ->
  Forall (fun row => length row = length (influence_objects skin_data)) rows ->
  length rows = length (sc_weights b) ->
  (length (influence_objects skin_data) <= length (sc_influences b))%nat ->
  run skin_handler (set_skin skin_data skin_node) st =
  Ok (tt, <[skin_node :=
            {| sc_geom := sc_geom b;
               sc_influences := sc_influences b;
               sc_weights :=
                 zip_with (fun n o => n ++ drop (length (influence_objects skin_data)) o)
                   rows (sc_weights b) |}]> st).
Proof.
  intros Hb Hwf Hws Hrows Hlen HK. unfold set_skin.
  rewrite (run_call_bind skin_handler (Skin_outputGeometry skin_node)).
  cbn [skin_handler]. rewrite Hb.
  rewrite !array_of_id, Hws, (run_call skin_handler (Skin_setWeights _ _ _ _ _)).
  cbn [skin_handler]. rewrite Hb.
  rewrite bool_decide_eq_true_2 by done.
  rewrite bool_decide_eq_true_2
    by (rewrite length_seq, <-Hlen; by apply length_concat_uniform).
  rewrite forallb_seq_le by done. cbn [andb].
  rewrite write_rows_front; [done|done| |done].
  unfold skin_wf in Hwf. eapply Forall_impl; [exact Hwf|].
  intros row Hrow. cbn beta in Hrow. lia.
Qed.

(** X11: applying a value with fewer influences than the binding has
    does not fail: the weights are written against the first influences of
    the binding, and the weights of its other influences stay as they
    were, without normalisation. *)
Theorem set_skin_fewer_influences (st : gmap string SkinCluster) (skin_node : string)
    (b : SkinCluster) (skin_data : Skin) (rows : list (list float)) :
  st !! skin_node = Some b ->
  skin_wf b ->
  weilghts skin_data = concat rows ->
  Forall (fun row => length row = length (influence_objects skin_data)) rows ->
  length rows = length (sc_weights b) ->
  (length (influence_objects skin_data) <= length (sc_influences b))%nat ->
  run skin_handler (set_skin skin_data skin_node) st =
  Ok (tt, <[skin_node :=
            {| sc_geom := sc_geom b;
               sc_influences := sc_influences b;
               sc_weights :=
                 zip_with (fun n o => n ++ drop (length (influence_objects skin_data)) o)
                   rows (sc_weights b) |}]> st).
Proof. apply set_skin_writes_front. Qed.

(** Two influences written to the binding of three of the example. *)
Lemma set_skin_fewer_influences_witness :
  run skin_handler
    (set_skin {| influence_objects := ["|root"; "|root|spine"];
                 weilghts := [0.25; 0.75; 0.5; 0.5; 0; 1; 1; 0]%float |}
       "skinCluster1") demo_skins
  = Ok (tt, <["skinCluster1" :=
              {| sc_geom := "|source";
                 sc_influences := ["|root"; "|root|spine"; "|root|spine|head"];
                 sc_weights := [[0.25; 0.75; 0]; [0.5; 0.5; 0]; [0; 1; 0]; [1; 0; 1]]%float |}]>
            demo_skins).
Proof.
  apply (set_skin_fewer_influences demo_skins "skinCluster1"
           {| sc_geom := "|source";
              sc_influences := ["|root"; "|root|spine"; "|root|spine|head"];
              sc_weights := [[1; 0; 0]; [0.5; 0.5; 0]; [0; 1; 0]; [0; 0; 1]]%float |}
           {| influence_objects := ["|root"; "|root|spine"];
              weilghts := [0.25; 0.75; 0.5; 0.5; 0; 1; 1; 0]%float |}
           [[0.25; 0.75]; [0.5; 0.5]; [0; 1]; [1; 0]]%float);
    try reflexivity; repeat constructor.
Defined.

(** *** Rebinding on the rig host *)

Lemma zip_with_full_rows K (new old : list (list float)) :
  Forall (fun row => length row = K) new ->
  Forall (fun row => length row = K) old ->
  length old = length new ->
  zip_with (fun n o => n ++ drop K o) new old = new.
Proof.
  intros Hnew. revert old. induction Hnew as [|r new Hr Hnew IH]; intros old Hold Hlen.
  - by destruct old.
  - destruct old as [|o old]; [done|]. injection Hlen as Hlen.
    apply Forall_cons in Hold as [Ho Hold]. cbn [zip_with].
    rewrite IH by done. rewrite drop_ge by lia. by rewrite app_nil_r.
Qed.

Section rig.

Context (seed : list string -> nat -> list (list float)) (fresh : string).

Let no_bind (c : cmd) : Prop := forall objects, c <> SkinCluster_bind objects.

(** Programs that create no binding run on the rig as on its bindings. *)
Lemma run_rig_no_bind {A} (p : Prog A) vertices skins :
  calls_only no_bind p ->
  run (rig_handler seed fresh) p (vertices, skins) = beside vertices (run skin_handler p skins).
Proof.
  intros Hp. revert skins. induction Hp as [a|e|c k Hc Hk IH]; intros skins; [done|done|].
  cbn [run].
  assert (Hh : rig_handler seed fresh c (vertices, skins) =
               beside vertices (skin_handler c skins)).
  { destruct c; try reflexivity. by destruct (Hc objects). }
  rewrite Hh. destruct (skin_handler c skins) as [[x skins']|e]; [|done].
  cbn. apply IH.
Qed.

Lemma no_bind_get_skin_data skin_node geom : calls_only no_bind (get_skin_data skin_node geom).
Proof.
  destruct skin_node; try constructor; try done.
  intros infs. constructor; [done|]. intros ws. constructor.
Qed.

Lemma no_bind_set_skin skin_data skin_node : calls_only no_bind (set_skin skin_data skin_node).
Proof.
  constructor; [done|]. intros geom.
  by apply (calls_only_one _ (Skin_setWeights _ _ _ _ _)).
Qed.

Lemma rig_bind vertices skins influences geom vertex_count :
  vertices !! geom = Some vertex_count ->
  skins !! fresh = None ->
  rig_handler seed fresh (SkinCluster_bind (influences ++ [geom])) (vertices, skins) =
  Ok ([fresh],
      (vertices,
       <[fresh := {| sc_geom := geom;
                     sc_influences := influences;
                     sc_weights := seed influences vertex_count |}]> skins)).
Proof.
  intros Hv Hf.
  pose proof (last_last influences geom "") as Hlast.
  pose proof (removelast_last influences geom) as Hinit.
  unfold rig_handler. destruct (influences ++ [geom]) as [|o objects] eqn:E.
  - by destruct influences.
  - unfold fst, snd. by rewrite Hlast, Hinit, Hv, Hf.
Qed.

End rig.

(** X12: extracting a binding whose influences are each the root path
    followed by a remainder in which the root path does not occur again,
    and rebinding the value to a mesh with as many vertices gives,
    whatever initial weights the host gives a new binding, one new binding
    on that mesh whose influences are the namespaced relative paths, in
    the same order, and whose weight matrix is exactly the extracted
    one. *)
Theorem rebind_skin_round_trip (seed : list string -> nat -> list (list float))
    (fresh : string) (vertices : gmap string nat) (skins : gmap string SkinCluster)
    (n1 geom2 namespace root_joint_path : string) (b1 : SkinCluster) (rests : list string) :
  seed_wf seed ->
  skins !! n1 = Some b1 ->
  skins !! fresh = None ->
  skin_wf b1 ->
  sc_influences b1 = map (fun rest => root_joint_path +:+ rest) rests ->
  Forall (fun rest => contains rest root_joint_path = false) rests ->
  vertices !! geom2 = Some (length (sc_weights b1)) ->
  run (rig_handler seed fresh)
    (extract_then_rebind n1 (sc_geom b1) geom2 namespace root_joint_path)
    (vertices, skins) =
  Ok (tt,
      (vertices,
       <[fresh :=
           {| sc_geom := geom2;
              sc_influences :=
                map (fun rest =>
                       add_namespace_to_full_path namespace
                         ("|" +:+ item_last (split "|" root_joint_path) +:+ rest)) rests;
              sc_weights := sc_weights b1 |}]> skins)).
Proof.
  intros Hseed H1 Hfresh Hwf Hinf Hrests Hv.
  unfold extract_then_rebind. rewrite run_bind.
  rewrite run_rig_no_bind by apply no_bind_get_skin_data.
  unfold get_skin_data.
  rewrite (run_call_bind skin_handler (Skin_influenceObjects n1)).
  cbn [skin_handler]. rewrite H1.
  rewrite (run_call_bind skin_handler (Skin_getWeights n1 (sc_geom b1))).
  cbn [skin_handler]. rewrite H1, decide_True by done. rewrite run_ret.
  cbn [beside fmap result_fmap fst snd].
  set (skin_data := {| influence_objects := sc_influences b1;
                       weilghts := concat (sc_weights b1) |}).
  set (influences :=
         map (fun rest =>
                add_namespace_to_full_path namespace
                  ("|" +:+ item_last (split "|" root_joint_path) +:+ rest)) rests).
  unfold rebind_skin. rewrite run_bind, run_rebind_loop.
  cbn [influence_objects skin_data]. rewrite Hinf, rebind_paths_below by done.
  cbn [fmap result_fmap app]. fold influences.
  rewrite (run_call_bind _ (SkinCluster_bind (influences ++ [geom2]))).
  rewrite (rig_bind seed fresh vertices skins influences geom2 _ Hv Hfresh).
  rewrite run_bind, run_lift. cbn [item0 fmap result_fmap].
  rewrite run_rig_no_bind by apply no_bind_set_skin.
  destruct (Hseed influences (length (sc_weights b1))) as [Hlen Hrows].
  rewrite (set_skin_writes_front _ fresh _ skin_data (sc_weights b1)
             (lookup_insert_eq _ _ _)); cbn [sc_geom sc_influences sc_weights];
    [|done|done| | |].
  - cbn [beside fmap result_fmap fst snd]. rewrite insert_insert_eq.
    do 4 f_equal. cbn [skin_data influence_objects].
    rewrite (zip_with_full_rows (length (sc_influences b1))); [done|exact Hwf| |done].
    eapply Forall_impl; [exact Hrows|]. intros row Hrow. cbn beta in Hrow.
    unfold influences in Hrow. by rewrite Hinf, !length_map in *.
  - cbn [skin_data influence_objects]. exact Hwf.
  - by rewrite Hlen.
  - cbn [skin_data influence_objects]. unfold influences.
    by rewrite Hinf, !length_map.
Qed.

Lemma first_influence_seed_wf : seed_wf first_influence_seed.
Proof.
  intros influences vertex_count. unfold first_influence_seed. split.
  - apply length_replicate.
  - apply Forall_replicate. destruct influences; [done|].
    cbn. by rewrite length_replicate.
Qed.

(** The binding of the four-vertex example mesh, rebound to its namespaced
    duplicate. *)
Lemma rebind_skin_round_trip_witness :
  run (rig_handler first_influence_seed "skinCluster2")
    (extract_then_rebind "skinCluster1" "|source" "proximity_bake:source"
       "proximity_bake" "|rig|root")
    demo_rig =
  Ok (tt,
      (demo_rig.1,
       <["skinCluster2" :=
           {| sc_geom := "proximity_bake:source";
              sc_influences :=
                ["proximity_bake:root"; "proximity_bake:root|proximity_bake:spine";
                 "proximity_bake:root|proximity_bake:spine|proximity_bake:head"];
              sc_weights := [[1; 0; 0]; [0.5; 0.5; 0]; [0; 1; 0]; [0; 0; 1]]%float |}]>
         demo_rig.2)).
Proof.
  apply (rebind_skin_round_trip first_influence_seed "skinCluster2" demo_rig.1 demo_rig.2
           "skinCluster1" "proximity_bake:source" "proximity_bake" "|rig|root"
           {| sc_geom := "|source";
              sc_influences := ["|rig|root"; "|rig|root|spine"; "|rig|root|spine|head"];
              sc_weights := [[1; 0; 0]; [0.5; 0.5; 0]; [0; 1; 0]; [0; 0; 1]]%float |}
           [""; "|spine"; "|spine|head"]);
    [apply first_influence_seed_wf|reflexivity|reflexivity| |reflexivity| |reflexivity].
  - repeat constructor.
  - repeat constructor.
Defined.

(** The same rebinding, seen as the calls it makes. *)
Lemma rebind_skin_below_root_witness :
  let skin_data :=
    {| influence_objects := ["|rig|root"; "|rig|root|spine"];
       weilghts := [1; 0; 0.5; 0.5; 0; 1; 0; 1]%float |} in
  let objects :=
    ["proximity_bake:root"; "proximity_bake:root|proximity_bake:spine";
     "proximity_bake:source"] in
  run (rig_handler first_influence_seed "skinCluster2")
    (rebind_skin skin_data "proximity_bake:source" "proximity_bake" "|rig|root") demo_rig =
    match rig_handler first_influence_seed "skinCluster2" (SkinCluster_bind objects) demo_rig with
    | Ok ([], _) => Raise IndexError
    | Ok (skin_node :: _, s') =>
        run (rig_handler first_influence_seed "skinCluster2") (set_skin skin_data skin_node) s'
    | Raise e => Raise e
    end
  /\ trace (rig_handler first_influence_seed "skinCluster2")
       (rebind_skin skin_data "proximity_bake:source" "proximity_bake" "|rig|root") demo_rig =
     SkinCluster_bind objects ::
     match rig_handler first_influence_seed "skinCluster2" (SkinCluster_bind objects) demo_rig with
     | Ok (skin_node :: _, s') =>
         trace (rig_handler first_influence_seed "skinCluster2")
           (set_skin skin_data skin_node) s'
     | _ => []
     end.
Proof.
  apply (rebind_skin_below_root (rig_handler first_influence_seed "skinCluster2") demo_rig
           {| influence_objects := ["|rig|root"; "|rig|root|spine"];
              weilghts := [1; 0; 0.5; 0.5; 0; 1; 0; 1]%float |}
           "proximity_bake:source" "proximity_bake" "|rig|root" [""; "|spine"]);
    [reflexivity|repeat constructor].
Defined.

(** ** The skinCluster of a mesh *)

Section history.

Context (v : History).

Lemma first_skin_cluster_miss nodes :
  Forall (fun m => hist_type v m <> "skinCluster") nodes ->
  run (history_handler v) (first_skin_cluster nodes) tt = Ok (PyNone, tt)
  /\ trace (history_handler v) (first_skin_cluster nodes) tt = map NodeType nodes.
Proof.
  induction 1 as [|m nodes Hm _ [IHr IHt]]; [done|].
  cbn [first_skin_cluster].
  rewrite (run_call_bind _ (NodeType m)), (trace_call_bind _ (NodeType m)).
  cbn [history_handler]. apply String.eqb_neq in Hm. rewrite Hm.
  split; [done|]. cbn [map]. by f_equal.
Qed.

Lemma first_skin_cluster_hit pre n post :
  Forall (fun m => hist_type v m <> "skinCluster") pre ->
  hist_type v n = "skinCluster" ->
  run (history_handler v) (first_skin_cluster (pre ++ n :: post)) tt = Ok (Node n, tt)
  /\ trace (history_handler v) (first_skin_cluster (pre ++ n :: post)) tt =
     map NodeType (pre ++ [n]).
Proof.
  intros Hpre Hn. induction Hpre as [|m pre Hm _ [IHr IHt]].
  - cbn [app first_skin_cluster].
    rewrite (run_call_bind _ (NodeType n)), (trace_call_bind _ (NodeType n)).
    cbn [history_handler]. by rewrite Hn.
  - cbn [app first_skin_cluster].
    rewrite (run_call_bind _ (NodeType m)), (trace_call_bind _ (NodeType m)).
    cbn [history_handler]. apply String.eqb_neq in Hm. rewrite Hm.
    split; [done|]. cbn [map]. by f_equal.
Qed.

End history.

(** X13: [get_related_skin_node] returns the first node of the mesh's
    history whose type is skinCluster, whatever follows it, and asks for
    the type of no node behind that one. *)
Theorem related_skin_node_first_in_history (v : History) (geom n : string)
    (pre post : list string) :
  hist_nodes v geom = Some (pre ++ n :: post) ->
  Forall (fun m => hist_type v m <> "skinCluster") pre ->
  hist_type v n = "skinCluster" ->
  run (history_handler v) (get_related_skin_node geom) tt = Ok (Node n, tt)
  /\ trace (history_handler v) (get_related_skin_node geom) tt =
     ListHistory geom :: map NodeType (pre ++ [n]).
Proof.
  intros Hnodes Hpre Hn. unfold get_related_skin_node.
  rewrite (run_call_bind _ (ListHistory geom)), (trace_call_bind _ (ListHistory geom)).
  cbn [history_handler]. rewrite Hnodes.
  destruct (first_skin_cluster_hit v pre n post Hpre Hn) as [Hr Ht].
  destruct (pre ++ n :: post) as [|m l] eqn:E; [by destruct pre|].
  by rewrite Hr, Ht.
Qed.

(** The second skinCluster in the history of the example mesh is not
    looked at. *)
Lemma related_skin_node_first_in_history_witness :
  run (history_handler demo_history) (get_related_skin_node "|geo|body") tt =
    Ok (Node "skinCluster1", tt)
  /\ trace (history_handler demo_history) (get_related_skin_node "|geo|body") tt =
     [ListHistory "|geo|body"; NodeType "bodyShape"; NodeType "tweak1";
      NodeType "skinCluster1"].
Proof.
  apply (related_skin_node_first_in_history demo_history "|geo|body" "skinCluster1"
           ["bodyShape"; "tweak1"] ["skinCluster7"; "bodyShapeOrig"]);
    [reflexivity|repeat constructor; discriminate|reflexivity].
Defined.

(** X14: on a mesh without a skinCluster in its history the function
    returns no node: [False] when the history is missing or empty, and
    [None] (the loop falls off the end of the function) when the history
    holds other nodes only. Both count as false in a condition, and
    [get_skin_data] raises [TypeError] on both. *)
Theorem related_skin_node_not_found (v : History) (geom : string) :
  (forall nodes m, hist_nodes v geom = Some nodes -> m ∈ nodes ->
     hist_type v m <> "skinCluster") ->
  exists r,
    run (history_handler v) (get_related_skin_node geom) tt = Ok (r, tt)
    /\ r = match hist_nodes v geom with
           | Some (_ :: _) => PyNone
           | _ => PyFalse
           end
    /\ truthy r = false
    /\ forall mesh, get_skin_data r mesh = Throw TypeError.
Proof.
  intros H. unfold get_related_skin_node.
  rewrite (run_call_bind _ (ListHistory geom)). cbn [history_handler].
  destruct (hist_nodes v geom) as [[|m nodes]|] eqn:E;
    [by exists PyFalse| |by exists PyFalse].
  exists PyNone.
  destruct (first_skin_cluster_miss v (m :: nodes)) as [Hr _]; [|by rewrite Hr].
  apply Forall_forall. intros x Hx. by apply (H (m :: nodes)).
Qed.

Lemma related_skin_node_not_found_witness :
  exists r,
    run (history_handler demo_history) (get_related_skin_node "|geo|prop") tt = Ok (r, tt)
    /\ r = PyNone
    /\ truthy r = false
    /\ forall mesh, get_skin_data r mesh = Throw TypeError.
Proof.
  apply (related_skin_node_not_found demo_history "|geo|prop").
  intros nodes m [= <-] Hm. apply list_elem_of_singleton in Hm as ->. discriminate.
Defined.

(** ** The order of the calls of the bake action *)

Section sequencing.

Context (P Q : cmd -> Prop).

Lemma not_before_bind {A B} (p : Prog A) (f : A -> Prog B) :
  not_before P Q p -> (forall a, not_before P Q (f a)) -> not_before P Q (p ≫= f).
Proof.
  intros Hp Hf. induction Hp as [a|e|c k Hq Hc|c k Hq Hk IH];
    [apply Hf|constructor| |].
  - rewrite bind_call. by apply not_before_open.
  - rewrite bind_call. by apply not_before_step.
Qed.

Lemma calls_only_not_before {A} (p : Prog A) :
  calls_only (fun c => ~ Q c) p -> not_before P Q p.
Proof.
  induction 1 as [a|e|c k Hc Hk IH]; [constructor|constructor|].
  by apply not_before_step.
Qed.

Lemma not_before_call {B} c (f : resp c -> Prog B) :
  ~ Q c -> (forall x, not_before P Q (f x)) -> not_before P Q (call c ≫= f).
Proof. intros Hq Hf. apply not_before_step; [done|]. intros x. apply Hf. Qed.

Lemma not_before_call_open {B} c (f : resp c -> Prog B) :
  ~ Q c -> P c -> not_before P Q (call c ≫= f).
Proof. intros Hq Hp. by apply not_before_open. Qed.

Lemma not_before_trace {S A} (h : handler S) (p : Prog A) s pre c post :
  not_before P Q p -> trace h p s = pre ++ c :: post -> Q c -> Exists P pre.
Proof.
  intros Hp. revert s pre. induction Hp as [a|e|c0 k Hq Hc|c0 k Hq Hk IH];
    intros s pre Ht Hqc.
  - by destruct pre.
  - by destruct pre.
  - cbn [trace] in Ht. destruct pre as [|c1 pre]; injection Ht as -> Ht; [done|].
    by left.
  - cbn [trace] in Ht. destruct pre as [|c1 pre]; injection Ht as -> Ht; [done|].
    right. destruct (h c1 s) as [[x s']|e]; [by eapply IH|by destruct pre].
Qed.

End sequencing.

Section reads.

Context (P : cmd -> Prop).

Lemma calls_only_first_skin_cluster nodes :
  (forall n, P (NodeType n)) -> calls_only P (first_skin_cluster nodes).
Proof.
  intros HN. induction nodes as [|n nodes IH]; [constructor|].
  cbn [first_skin_cluster].
  apply calls_only_bind; [by apply (calls_only_one _ (NodeType n))|].
  intros t. destruct (String.eqb t "skinCluster"); [constructor|done].
Qed.

Lemma calls_only_get_related_skin_node geom :
  (forall g, P (ListHistory g)) -> (forall n, P (NodeType n)) ->
  calls_only P (get_related_skin_node geom).
Proof.
  intros HL HN.
  apply calls_only_bind; [by apply (calls_only_one _ (ListHistory geom))|].
  intros [[|n nodes]|];
    [constructor|by apply calls_only_first_skin_cluster|constructor].
Qed.

Lemma calls_only_get_skin_data skin_node geom :
  (forall n, P (Skin_influenceObjects n)) -> (forall n g, P (Skin_getWeights n g)) ->
  calls_only P (get_skin_data skin_node geom).
Proof.
  intros HI HW. destruct skin_node; try constructor; [done|].
  intros infs. constructor; [done|]. intros ws. constructor.
Qed.

Lemma calls_only_set_skin skin_data skin_node :
  (forall n, P (Skin_outputGeometry n)) ->
  (forall n g i w, P (Skin_setWeights n g i w false)) ->
  calls_only P (set_skin skin_data skin_node).
Proof.
  intros HO HS. constructor; [done|]. intros geom.
  by apply (calls_only_one _ (Skin_setWeights _ _ _ _ _)).
Qed.

Lemma calls_only_cleanup :
  P Ls_all -> (forall l, P (Delete l)) -> P NamespaceInfo_lon_r ->
  (forall n, P (Namespace_rm n)) -> calls_only P cleanup.
Proof.
  intros HL HD HI HR. constructor; [done|]. intros all_nodes.
  apply calls_only_bind; [by apply (calls_only_one _ (Delete _))|]. intros _.
  constructor; [done|]. intros all_namespaces.
  apply calls_only_for_fold. intros _ n. by apply (calls_only_one _ (Namespace_rm n)).
Qed.


End reads.

Lemma bake_removes_after_bake_call :
  not_before (fun c => is_bakeDeformer c = true) (fun c => removal c = true) _bake.
Proof.
  unfold _bake.
  apply not_before_call; [done|]. intros root.
  apply not_before_call; [done|]. intros target. cbn zeta.
  apply not_before_call; [done|]. intros influence_number.
  apply not_before_bind;
    [by apply calls_only_not_before, calls_only_get_related_skin_node|].
  intros skin_node.
  apply not_before_bind.
  { destruct (truthy skin_node); [|constructor].
    by apply calls_only_not_before, (calls_only_one _ (SkinCluster_unbind skin_node)). }
  intros _. by apply not_before_call_open.
Qed.

Lemma bake_removes_after_set_weights :
  not_before (fun c => is_setWeights c = true) (fun c => removal c = true) _bake.
Proof.
  unfold _bake.
  apply not_before_call; [done|]. intros root.
  apply not_before_call; [done|]. intros target. cbn zeta.
  apply not_before_call; [done|]. intros influence_number.
  apply not_before_bind;
    [by apply calls_only_not_before, calls_only_get_related_skin_node|].
  intros skin_node.
  apply not_before_bind.
  { destruct (truthy skin_node); [|constructor].
    by apply calls_only_not_before, (calls_only_one _ (SkinCluster_unbind skin_node)). }
  intros _. apply not_before_call; [done|]. intros _.
  apply not_before_bind;
    [by apply calls_only_not_before, calls_only_get_related_skin_node|].
  intros skin_node'.
  apply not_before_bind;
    [by apply calls_only_not_before, calls_only_get_skin_data|].
  intros skin_data.
  apply not_before_call; [done|]. intros _.
  apply not_before_call; [done|]. intros bound.
  apply not_before_bind; [apply calls_only_not_before, calls_only_lift|].
  intros skin_node''. unfold set_skin.
  apply not_before_step; [done|]. intros geom.
  by apply not_before_open.
Qed.

(** X15: on every host, every deletion of nodes ([mc.delete]) and every
    removal of a namespace in a run of [_bake] comes after the call of the
    bake primitive and after a write of weights; a run that stops before
    the weights are written has issued no deletion and no namespace
    removal. The unbinding of skinClusters is not among these calls:
    [_bake] issues it earlier. *)
Theorem bake_removes_after_weights {S} (h : handler S) (s : S)
    (pre post : list cmd) (c : cmd) :
  trace h _bake s = pre ++ c :: post ->
  removal c = true ->
  Exists (fun c => is_bakeDeformer c = true) pre
  /\ Exists (fun c => is_setWeights c = true) pre.
Proof.
  intros Ht Hc. split.
  - by eapply not_before_trace; [apply bake_removes_after_bake_call|..].
  - by eapply not_before_trace; [apply bake_removes_after_set_weights|..].
Qed.

(** The deletion of the namespaced nodes in a complete run. *)
Lemma bake_removes_after_weights_witness :
  let run_calls := trace (answering_handler (Some ["skinCluster1"])) _bake tt in
  run_calls !! 16%nat = Some (Delete ["proximity_bake:root"])
  /\ Exists (fun c => is_bakeDeformer c = true) (take 16 run_calls)
  /\ Exists (fun c => is_setWeights c = true) (take 16 run_calls).
Proof.
  split; [reflexivity|].
  apply (bake_removes_after_weights (answering_handler (Some ["skinCluster1"])) tt
           (take 16 (trace (answering_handler (Some ["skinCluster1"])) _bake tt))
           (drop 17 (trace (answering_handler (Some ["skinCluster1"])) _bake tt))
           (Delete ["proximity_bake:root"])); reflexivity.
Defined.




(** X17: the bake action never reads the source geometry field of the
    panel (the source mesh it passes on is named after the target), and it
    never asks the host to normalise the weights it writes. *)
Theorem bake_never_reads_source_field :
  calls_only
    (fun c => c <> TextField_q_tx source_geom_tfbg
              /\ forall n g i w, c <> Skin_setWeights n g i w true)
    _bake.
Proof.
  unfold _bake.
  apply calls_only_bind; [by apply (calls_only_one _ (TextField_q_tx root_tfbg))|].
  intros root.
  apply calls_only_bind;
    [by apply (calls_only_one _ (TextField_q_tx target_geom_tfbg))|].
  intros target. cbn zeta.
  apply calls_only_bind; [by apply (calls_only_one _ IntField_q_v1)|].
  intros influence_number.
  apply calls_only_bind; [by apply calls_only_get_related_skin_node|].
  intros skin_node.
  apply calls_only_bind.
  { destruct (truthy skin_node); [|constructor].
    by apply (calls_only_one _ (SkinCluster_unbind skin_node)). }
  intros _.
  apply calls_only_bind; [by apply (calls_only_one _ (BakeDeformer _ _ _ _ _))|].
  intros _.
  apply calls_only_bind; [by apply calls_only_get_related_skin_node|].
  intros skin_node'.
  apply calls_only_bind; [by apply calls_only_get_skin_data|].
  intros skin_data.
  apply calls_only_bind; [by apply (calls_only_one _ (SkinCluster_unbind skin_node'))|].
  intros _.
  apply calls_only_bind; [by apply (calls_only_one _ (SkinCluster_bind _))|].
  intros bound.
  apply calls_only_bind; [apply calls_only_lift|].
  intros skin_node''.
  apply calls_only_bind; [by apply calls_only_set_skin|].
  intros _. by apply calls_only_cleanup.
Qed.

(** ** The order of the removals of [cleanup] *)

Lemma removed_namespaces_loop {S} (h : handler S) (l : list string) (s : S) :
  removed_namespaces (trace h (for_each l (fun ns => call (Namespace_rm ns))) s)
    `prefix_of` l.
Proof.
  revert s. induction l as [|n l IH]; intros s; [done|].
  unfold for_each. cbn [for_fold]. rewrite trace_bind.
  rewrite (trace_call h (Namespace_rm n)). cbn [app removed_namespaces omap].
  apply prefix_cons.
  destruct (run h _ s) as [[[] s']|e]; [apply IH|apply prefix_nil].
Qed.

Lemma removed_namespaces_cleanup {S} (h : handler S) (s : S) :
  exists l,
    removed_namespaces (trace h cleanup s) `prefix_of` l
    /\ StronglySorted (fun a b => String.length b <= String.length a)%nat l.
Proof.
  unfold cleanup. rewrite (trace_call_bind h Ls_all).
  destruct (h Ls_all s) as [[all_nodes s1]|e];
    [|exists []; split; [apply prefix_nil|constructor]].
  rewrite (trace_call_bind h (Delete _)).
  destruct (h (Delete _) s1) as [[[] s2]|e];
    [|exists []; split; [apply prefix_nil|constructor]].
  rewrite (trace_call_bind h NamespaceInfo_lon_r).
  destruct (h NamespaceInfo_lon_r s2) as [[all_namespaces s3]|e];
    [|exists []; split; [apply prefix_nil|constructor]].
  eexists. split; [apply removed_namespaces_loop|apply sorted_len_desc_sorted].
Qed.

(** X18: on every host, [cleanup] asks for the removal of a namespace
    nested in another one before it asks for the removal of the outer
    one, so that the outer one is empty when its turn comes. *)
Theorem cleanup_removes_nested_first {S} (h : handler S) (s : S) (i j : nat)
    (outer nested : string) :
  removed_namespaces (trace h cleanup s) !! i = Some outer ->
  removed_namespaces (trace h cleanup s) !! j = Some nested ->
  inside outer nested = true ->
  (j < i)%nat.
Proof.
  intros Hi Hj Hin. apply inside_longer in Hin.
  destruct (removed_namespaces_cleanup h s) as (l & Hpre & Hsorted).
  apply (prefix_lookup_Some _ l) in Hi; [|done].
  apply (prefix_lookup_Some _ l) in Hj; [|done].
  destruct (decide (i < j)%nat) as [Hlt|Hge].
  - pose proof (sorted_lookup_lt _ l i j outer nested Hsorted Hlt Hi Hj). simpl in *. lia.
  - destruct (decide (i = j)) as [->|Hne]; [|lia].
    rewrite Hi in Hj. injection Hj as ->. lia.
Qed.

Lemma cleanup_removes_nested_first_witness :
  removed_namespaces (trace workspace_handler cleanup nested_workspace) =
    ["proximity_bake:rig:left"; "proximity_bake:rig"]
  /\ (0 < 1)%nat.
Proof.
  split; [reflexivity|].
  apply (cleanup_removes_nested_first workspace_handler nested_workspace 1 0
           "proximity_bake:rig" "proximity_bake:rig:left"); reflexivity.
Defined.

(** ** The build phase *)

Section queries.

Context (P : cmd -> Prop).

Lemma calls_only_get_joint_data joint_path :
  (forall p, P (Xform_q_ws_t p)) -> (forall p, P (GetAttr_double3 p)) ->
  (forall p, P (GetAttr_int p)) -> (forall p, P (GetAttr_double p)) ->
  calls_only P (get_joint_data joint_path).
Proof.
  intros HX H3 HI HD. unfold get_joint_data.
  apply calls_only_bind; [by apply (calls_only_one _ (Xform_q_ws_t _))|]. intros ?.
  apply calls_only_bind; [by apply (calls_only_one _ (GetAttr_double3 _))|]. intros ?.
  apply calls_only_bind; [by apply (calls_only_one _ (GetAttr_double3 _))|]. intros ?.
  apply calls_only_bind; [by apply (calls_only_one _ (GetAttr_int _))|]. intros ?.
  apply calls_only_bind; [by apply (calls_only_one _ (GetAttr_double _))|]. intros ?.
  constructor.
Qed.

Lemma calls_only_get_skeleton_data root_joint_path :
  (forall p, P (Ls_long p)) -> (forall p, P (ListRelatives_ad_joint p)) ->
  (forall p, P (Xform_q_ws_t p)) -> (forall p, P (GetAttr_double3 p)) ->
  (forall p, P (GetAttr_int p)) -> (forall p, P (GetAttr_double p)) ->
  calls_only P (get_skeleton_data root_joint_path).
Proof.
  intros HL HR HX H3 HI HD. unfold get_skeleton_data.
  apply calls_only_bind; [by apply (calls_only_one _ (Ls_long _))|]. intros found.
  apply calls_only_bind; [apply calls_only_lift|]. intros root_path.
  apply calls_only_bind; [by apply calls_only_get_joint_data|]. intros root_data.
  apply calls_only_bind; [by apply (calls_only_one _ (ListRelatives_ad_joint _))|].
  intros relatives.
  apply calls_only_bind; [apply calls_only_lift|]. intros child_joints.
  apply calls_only_for_fold. intros data joint_path. unfold skeleton_step.
  apply calls_only_bind; [by apply calls_only_get_joint_data|]. intros current_data.
  apply calls_only_bind; [apply calls_only_lift|]. intros current_path.
  constructor.
Qed.

End queries.

Section build_runs.

Context {S : Type} (h : build_handler S).

Lemma build_bind_call {A B} c (k : build_resp c -> Build A) (f : A -> Build B) :
  BCall c k ≫= f = BCall c (fun x => k x ≫= f).
Proof. reflexivity. Qed.

Lemma build_run_bind {A B} (p : Build A) (f : A -> Build B) s :
  build_run h (p ≫= f) s =
  match build_run h p s with
  | Ok (a, s') => build_run h (f a) s'
  | Raise e => Raise e
  end.
Proof.
  revert s. induction p as [a|e|c k IH]; intros s; try done.
  rewrite build_bind_call. simpl. destruct (h c s) as [[x s']|e]; [apply IH|done].
Qed.

Lemma build_trace_bind {A B} (p : Build A) (f : A -> Build B) s :
  build_trace h (p ≫= f) s =
  build_trace h p s ++
  match build_run h p s with
  | Ok (a, s') => build_trace h (f a) s'
  | Raise e => []
  end.
Proof.
  revert s. induction p as [a|e|c k IH]; intros s; try done.
  rewrite build_bind_call. simpl. f_equal.
  destruct (h c s) as [[x s']|e]; [apply IH|done].
Qed.

Lemma build_run_host {A} (p : Prog A) s :
  build_run h (host p) s = run (on_cmds h) p s.
Proof.
  revert s. induction p as [a|e|c k IH]; intros s; try done.
  simpl. unfold on_cmds at 1. destruct (h (Cmd c) s) as [[x s']|e]; [apply IH|done].
Qed.

Lemma build_trace_host {A} (p : Prog A) s :
  build_trace h (host p) s = map Cmd (trace (on_cmds h) p s).
Proof.
  revert s. induction p as [a|e|c k IH]; intros s; try done.
  simpl. unfold on_cmds at 1. f_equal.
  destruct (h (Cmd c) s) as [[x s']|e]; [apply IH|done].
Qed.

Lemma build_read {B} c (f : resp c -> Build B) s x s' :
  h (Cmd c) s = Ok (x, s') ->
  build_run h (host (call c) ≫= f) s = build_run h (f x) s'
  /\ build_trace h (host (call c) ≫= f) s = Cmd c :: build_trace h (f x) s'.
Proof. intros H. simpl. by rewrite H. Qed.

End build_runs.

(** X19: when the source mesh has no skinCluster in its history and the
    skeleton can be extracted, the build action raises [TypeError] (from
    [get_skin_data]) having only asked the host for values: no joint has
    been created and no mesh duplicated. *)
Theorem build_without_source_binding {S} (h : build_handler S) (s s1 s2 s3 s4 s5 : S)
    (source_geom root_joint target_geom : string) (r : node_ref) (skeleton : list Joint) :
  h (Cmd (TextField_q_tx source_geom_tfbg)) s = Ok (source_geom, s1) ->
  h (Cmd (TextField_q_tx root_tfbg)) s1 = Ok (root_joint, s2) ->
  h (Cmd (TextField_q_tx target_geom_tfbg)) s2 = Ok (target_geom, s3) ->
  run (on_cmds h) (get_related_skin_node source_geom) s3 = Ok (r, s4) ->
  (forall n, r <> Node n) ->
  run (on_cmds h) (get_skeleton_data root_joint) s4 = Ok (skeleton, s5) ->
  build_run h _build s = Raise TypeError
  /\ Forall (fun c => asks_only c = true) (build_trace h _build s).
Proof.
  intros Hsource Hroot Htarget Hrel Hr Hskel. unfold _build.
  assert (Hget : get_skin_data r source_geom = Throw TypeError).
  { destruct r as [n| |]; [by destruct (Hr n)|done|done]. }
  rewrite (proj1 (build_read h (TextField_q_tx source_geom_tfbg) _ s _ _ Hsource)),
    (proj2 (build_read h (TextField_q_tx source_geom_tfbg) _ s _ _ Hsource)).
  rewrite (proj1 (build_read h (TextField_q_tx root_tfbg) _ s1 _ _ Hroot)),
    (proj2 (build_read h (TextField_q_tx root_tfbg) _ s1 _ _ Hroot)).
  rewrite (proj1 (build_read h (TextField_q_tx target_geom_tfbg) _ s2 _ _ Htarget)),
    (proj2 (build_read h (TextField_q_tx target_geom_tfbg) _ s2 _ _ Htarget)).
  rewrite build_run_bind, build_trace_bind, build_run_host, build_trace_host, Hrel.
  rewrite build_run_bind, build_trace_bind, build_run_host, build_trace_host, Hskel.
  rewrite Hget. cbn [host mbind build_bind build_bind_def build_run build_trace].
  rewrite app_nil_r.
  split; [done|].
  do 3 (constructor; [done|]).
  apply Forall_app. split; apply Forall_fmap;
    apply (calls_only_trace (fun c => asks_only (Cmd c) = true)).
  - by apply calls_only_get_related_skin_node.
  - by apply calls_only_get_skeleton_data.
Qed.

(** A scene in which the source mesh has no history. *)
Lemma build_without_source_binding_witness :
  build_run (answering_build_handler None) _build tt = Raise TypeError
  /\ Forall (fun c => asks_only c = true)
       (build_trace (answering_build_handler None) _build tt).
Proof.
  apply (build_without_source_binding (answering_build_handler None) tt tt tt tt tt tt
           "|geo|source" "|rig|root" "|geo|body" PyFalse
           [view_joint (joints_view [] []) "|rig|root";
            set_parent_path (view_joint (joints_view [] []) "|rig|root|tip") "|root"]);
    (reflexivity || discriminate).
Defined.

(** *** The replica of the skeleton *)

(** The shape of an extracted skeleton: the parent path of every joint
    behind the root is the relative path of an earlier joint. *)
Lemma extraction_shape (v : SceneView) (r root : string) (found child_joints : list string) :
  sv_ls v root = r :: found ->
  sv_relatives v r = Some child_joints ->
  joints_below r child_joints ->
  exists more,
    extract_skeleton v root = Ok (view_joint v r :: more)
    /\ forall i j, more !! i = Some j ->
         exists init,
           parent_path j = Some (full_path (item_last (split "|" r) :: init))
           /\ Forall (fun p => contains p "|" = false) init
           /\ (init = []
               \/ exists k p init',
                    (k < i)%nat /\ more !! k = Some p /\ init = init' ++ [name p]
                    /\ parent_path p = Some (full_path (item_last (split "|" r) :: init'))).
Proof.
  intros Hls Hrel Hb. rewrite extract_skeleton_eq, Hls, Hrel. cbn.
  set (short := item_last (split "|" r)).
  set (cs := sorted_by String.leb child_joints).
  assert (Hperm : cs ≡ₚ child_joints) by apply sorted_by_perm.
  assert (Hsorted : StronglySorted (fun x y => String.leb x y = true) cs).
  { apply sorted_by_sorted; [apply String.leb_total|apply leb_trans]. }
  assert (Hshape : forall c, c ∈ child_joints ->
            exists init s,
              Forall segment (init ++ [s])
              /\ c = r +:+ full_path (init ++ [s])
              /\ build_path_from_root c r = Ok (full_path (short :: init ++ [s]))
              /\ join "|" (slice_to_m1 (split "|" (full_path (short :: init ++ [s])))) =
                 full_path (short :: init)
              /\ item_last (split "|" c) = s).
  { intros c Hc.
    destruct (below_paths _ _ Hb c Hc) as (segments & Hne & Hseg & -> & Hr).
    destruct (segments_snoc segments Hne) as (init & s & ->).
    exists init, s. split; [done|]. split; [done|]. split; [by apply child_path|].
    split; [by apply child_parent_path|].
    apply child_name. apply Forall_app in Hseg as [_ Hs].
    apply Forall_inv in Hs. by destruct Hs. }
  destruct (view_children_ok v r cs [view_joint v r]) as (more & Hrun & Hlen & Hmore).
  { intros c Hc. rewrite Hperm in Hc.
    destruct (Hshape c Hc) as (init & s & _ & _ & Hcur & _). by rewrite Hcur. }
  exists more. split; [done|].
  intros i j Hj.
  assert (Hi : (i < length cs)%nat) by (rewrite <-Hlen; by eapply lookup_lt_Some).
  apply lookup_lt_is_Some in Hi as [c Hci].
  assert (Hcin : c ∈ child_joints) by (rewrite <-Hperm; by eapply list_elem_of_lookup_2).
  destruct (Hmore i c Hci) as (cur & Hcur & Hmi).
  destruct (Hshape c Hcin) as (init & s & Hseg & Hc & Hcur' & Hpp & Hname).
  assert (cur = full_path (short :: init ++ [s])) as -> by congruence.
  rewrite Hpp in Hmi. rewrite Hmi in Hj. injection Hj as <-.
  cbn [parent_path set_parent_path].
  exists init. split; [done|].
  assert (Hinit : Forall (fun p => contains p "|" = false) init).
  { apply Forall_app in Hseg as [Hseg _]. by apply segments_no_separator. }
  split; [done|].
  destruct (decide (init = [])) as [->|Hne]; [by left|]. right.
  assert (Hparent : r +:+ full_path init ∈ child_joints).
  { apply (below_closed _ _ Hb init s); [done|done|by rewrite <-Hc]. }
  assert (Hpin : r +:+ full_path init ∈ cs) by by rewrite Hperm.
  apply list_elem_of_lookup in Hpin as [k Hk].
  destruct (Hmore k _ Hk) as (curp & Hcurp & Hmk).
  destruct (Hshape _ Hparent) as (initp & sp & Hsegp & Hp & Hcurp' & Hppp & Hnamep).
  assert (curp = full_path (short :: initp ++ [sp])) as -> by congruence.
  rewrite Hppp in Hmk.
  assert (Hlt : (k < i)%nat).
  { assert (Hle : String.leb (r +:+ full_path init) c = true).
    { rewrite Hc, full_path_snoc, <-app_assoc_str by done. apply leb_prefix. }
    assert (Hneq : r +:+ full_path init <> c).
    { rewrite Hc, full_path_snoc by done. intros Heq.
      apply (f_equal String.length) in Heq.
      rewrite !length_app_str in Heq. cbn in Heq. lia. }
    destruct (decide (k < i)%nat) as [|Hge]; [done|]. exfalso.
    destruct (decide (k = i)) as [->|Hki]; [congruence|].
    apply Hneq, String.leb_antisym; [done|].
    apply (sorted_lookup_lt (fun x y => String.leb x y = true) cs i k);
      [done|lia|done|done]. }
  eexists k, _, initp. split; [done|]. split; [exact Hmk|].
  cbn [name parent_path set_parent_path view_joint]. split; [|done].
  rewrite Hnamep.
  apply String.app_inj in Hp. apply (f_equal (split "|")) in Hp.
  rewrite !split_full_path in Hp;
    [by injection Hp|by apply segments_no_separator|done].
Qed.

(** The namespaced path of a joint is the namespaced path of its parent
    followed by its own namespaced name. *)
Lemma add_namespace_child ns (segments : list string) (s : string) :
  ns <> "" -> segments <> [] ->
  Forall (fun p => contains p "|" = false) (segments ++ [s]) ->
  add_namespace_to_full_path ns (full_path (segments ++ [s])) =
  add_namespace_to_full_path ns (full_path segments) +:+ "|" +:+ (ns +:+ ":" +:+ s).
Proof.
  intros Hns Hne Hall. rewrite !add_namespace_segments;
    [|by apply Forall_app in Hall as [? _]|done].
  rewrite map_app. cbn [map]. rewrite join_snoc.
  destruct segments as [|x segments]; [done|]. cbn [map].
  do 2 f_equal. unfold qualifier. apply String.eqb_neq in Hns. rewrite Hns.
  apply app_assoc_str.
Qed.

Lemma add_namespace_root ns (s : string) :
  ns <> "" -> contains s "|" = false ->
  add_namespace_to_full_path ns (full_path [s]) = ns +:+ ":" +:+ s.
Proof.
  intros Hns Hs. rewrite add_namespace_segments by by constructor.
  cbn. unfold qualifier. apply String.eqb_neq in Hns. rewrite Hns.
  apply app_assoc_str.
Qed.

(** Where a call of a run of calls made joint by joint comes from. *)
Lemma concat_occurrence {A B} (f : A -> list B) (l : list A) pre x post :
  concat (map f l) = pre ++ x :: post ->
  exists i y,
    l !! i = Some y /\ x ∈ f y
    /\ forall k z c, (k < i)%nat -> l !! k = Some z -> c ∈ f z -> c ∈ pre.
Proof.
  revert pre. induction l as [|y l IH]; intros pre H; [by destruct pre|].
  cbn [map concat] in H. apply app_eq_inv in H as [(k & Hy & Hk)|(k & Hpre & Hk)].
  - destruct k as [|x' k].
    + rewrite app_nil_r in Hy. cbn in Hk. symmetry in Hk.
      destruct (IH [] Hk) as (i & y' & Hi & Hx & Hbefore).
      exists (Datatypes.S i), y'. split; [done|]. split; [done|].
      intros [|n] z c Hn Hz Hc.
      * injection Hz as <-. by rewrite <-Hy.
      * exfalso. eapply elem_of_nil, (Hbefore n z c); [lia|done|done].
    + injection Hk as <- Hk. exists 0%nat, y. split; [done|]. split.
      * rewrite Hy. apply elem_of_app. right. left.
      * intros; lia.
  - destruct (IH k Hk) as (i & y' & Hi & Hx & Hbefore).
    exists (Datatypes.S i), y'. split; [done|]. split; [done|].
    intros [|n] z c Hn Hz Hc; rewrite Hpre; apply elem_of_app.
    + injection Hz as <-. by left.
    + right. apply (Hbefore n z c); [lia|done|done].
Qed.

Section replica.

Context {S : Type} (h : build_handler S) (namespace : string).
Hypothesis Hnames : names_as_asked h.

Lemma build_joint_trace {B} (joint : Joint) (rest : Build B) s :
  build_trace h (build_joint namespace joint ≫= fun _ => rest) s
    `prefix_of` joint_calls namespace joint
  \/ exists s',
       build_trace h (build_joint namespace joint ≫= fun _ => rest) s =
       joint_calls namespace joint ++ build_trace h rest s'.
Proof.
  unfold build_joint, joint_calls.
  set (n := namespace +:+ ":" +:+ name joint).
  cbn [mbind build_bind build_bind_def bcall build_trace].
  destruct (h (CreateNode_joint n) s) as [[x s1]|e] eqn:E;
    [|left; apply prefix_cons, prefix_nil].
  apply Hnames in E as ->.
  cbn [mbind build_bind build_bind_def bcall build_trace].
  destruct (h (Xform_ws_t n _) s1) as [[[] s2]|e];
    [|left; do 2 apply prefix_cons; apply prefix_nil].
  destruct (parent_path joint) as [pp|].
  - cbn [mbind build_bind build_bind_def bcall build_trace mret build_ret app].
    destruct (h (Parent n _) s2) as [[[] s3]|e];
      [|left; do 3 apply prefix_cons; apply prefix_nil].
    destruct (h (SetAttr_double3 (n +:+ ".r") _) s3) as [[[] s4]|e];
      [|left; do 4 apply prefix_cons; apply prefix_nil].
    destruct (h (SetAttr_double3 (n +:+ ".jo") _) s4) as [[[] s5]|e];
      [|left; do 5 apply prefix_cons; apply prefix_nil].
    destruct (h (SetAttr_int (n +:+ ".ro") _) s5) as [[[] s6]|e];
      [|left; do 6 apply prefix_cons; apply prefix_nil].
    destruct (h (SetAttr_double (n +:+ ".radi") _) s6) as [[[] s7]|e];
      [|left; do 7 apply prefix_cons; apply prefix_nil].
    right. by exists s7.
  - cbn [mbind build_bind build_bind_def bcall build_trace mret build_ret app].
    destruct (h (SetAttr_double3 (n +:+ ".r") _) s2) as [[[] s4]|e];
      [|left; do 3 apply prefix_cons; apply prefix_nil].
    destruct (h (SetAttr_double3 (n +:+ ".jo") _) s4) as [[[] s5]|e];
      [|left; do 4 apply prefix_cons; apply prefix_nil].
    destruct (h (SetAttr_int (n +:+ ".ro") _) s5) as [[[] s6]|e];
      [|left; do 5 apply prefix_cons; apply prefix_nil].
    destruct (h (SetAttr_double (n +:+ ".radi") _) s6) as [[[] s7]|e];
      [|left; do 6 apply prefix_cons; apply prefix_nil].
    right. by exists s7.
Qed.

Lemma build_skeleton_trace (data : list Joint) s :
  build_trace h (build_skeleton data namespace) s
    `prefix_of` concat (map (joint_calls namespace) data).
Proof.
  revert s. induction data as [|joint data IH]; intros s; [done|].
  unfold build_skeleton. cbn [bfor_each map concat].
  destruct (build_joint_trace joint (bfor_each data (build_joint namespace)) s)
    as [Hpre|[s' ->]].
  - by apply prefix_app_r.
  - destruct (IH s') as [k ->]. exists k. by rewrite <-app_assoc.
Qed.

End replica.

Lemma parent_in_joint_calls ns (joint : Joint) child parent :
  Parent child parent ∈ joint_calls ns joint ->
  exists pp, parent_path joint = Some pp /\ parent = add_namespace_to_full_path ns pp.
Proof.
  unfold joint_calls. destruct (parent_path joint) as [pp|]; cbn [app]; intros H.
  - repeat (apply elem_of_cons in H as [H|H]; [try discriminate H|]);
      [|by apply elem_of_nil in H].
    injection H as _ ->. by exists pp.
  - repeat (apply elem_of_cons in H as [H|H]; [discriminate H|]).
    by apply elem_of_nil in H.
Qed.

Lemma answering_names_as_asked history :
  names_as_asked (answering_build_handler history).
Proof. intros n s x s' H. by injection H as <- _. Qed.

(** X20: the replica of the skeleton extracted from a hierarchy of
    joints (every listed descendant has its parent listed or is a child of
    the root, and the root path occurs once in its path) is put together
    parents first. On a host that names the joints as asked and for a
    namespace that is not empty, the node named as the new parent in a
    parent call of [build_skeleton] is a joint [q] created earlier in the
    run, addressed by its name if it is the replica of the root, and
    otherwise by the path it was itself parented under followed by its
    name. *)
Theorem build_skeleton_parents_first {S} (h : build_handler S) (s : S) (v : SceneView)
    (r root : string) (found child_joints : list string) (joints : list Joint)
    (namespace : string) (pre post : list build_cmd) (child parent : string) :
  sv_ls v root = r :: found ->
  sv_relatives v r = Some child_joints ->
  joints_below r child_joints ->
  extract_skeleton v root = Ok joints ->
  namespace <> "" ->
  names_as_asked h ->
  build_trace h (build_skeleton joints namespace) s = pre ++ Parent child parent :: post ->
  exists q,
    CreateNode_joint q ∈ pre
    /\ (parent = q
        \/ exists up, Parent q up ∈ pre /\ parent = up +:+ "|" +:+ q).
Proof.
  intros Hls Hrel Hb Hjoints Hns Hnames Ht.
  destruct (extraction_shape v r root found child_joints Hls Hrel Hb)
    as (more & Hex & Hshape).
  rewrite Hex in Hjoints. injection Hjoints as <-.
  destruct (build_skeleton_trace h namespace Hnames (view_joint v r :: more) s)
    as [rest Hfull].
  rewrite Ht, <-app_assoc in Hfull. cbn [app] in Hfull.
  apply concat_occurrence in Hfull as (i & y & Hi & Hx & Hbefore).
  apply parent_in_joint_calls in Hx as (pp & Hpp & ->).
  destruct i as [|i]; [by injection Hi as <-|]. cbn in Hi.
  destruct (Hshape i y Hi) as (init & Hpp' & Hinit & Hparent).
  assert (pp = full_path (item_last (split "|" r) :: init)) as -> by congruence.
  assert (Hshort : contains (item_last (split "|" r)) "|" = false)
    by apply item_last_split_char.
  destruct Hparent as [->|(k & p & init' & Hk & Hp & -> & Hppp)].
  - exists (namespace +:+ ":" +:+ item_last (split "|" r)). split.
    + apply (Hbefore 0%nat (view_joint v r)); [lia|done|left].
    + left. by apply add_namespace_root.
  - exists (namespace +:+ ":" +:+ name p). split.
    + apply (Hbefore (Datatypes.S k) p); [lia|done|left].
    + right.
      exists (add_namespace_to_full_path namespace
                (full_path (item_last (split "|" r) :: init'))).
      split.
      * apply (Hbefore (Datatypes.S k) p); [lia|done|].
        unfold joint_calls. rewrite Hppp. cbn [app]. right. right. left.
      * apply (add_namespace_child namespace (item_last (split "|" r) :: init'));
          [done|done|by constructor].
Qed.

(** The replica of the head joint of the example scene is parented under
    the replica of the spine joint, which was created and parented under
    the replica of the root before. *)
Lemma build_skeleton_parents_first_witness :
  let joints :=
    [view_joint spine_view "|rig|root";
     set_parent_path (view_joint spine_view "|rig|root|arm") "|root";
     set_parent_path (view_joint spine_view "|rig|root|spine") "|root";
     set_parent_path (view_joint spine_view "|rig|root|spine|head") "|root|spine"] in
  let calls :=
    build_trace (answering_build_handler None) (build_skeleton joints "proximity_bake") tt in
  calls !! 22%nat =
    Some (Parent "proximity_bake:head" "proximity_bake:root|proximity_bake:spine")
  /\ exists q,
       CreateNode_joint q ∈ take 22 calls
       /\ ("proximity_bake:root|proximity_bake:spine" = q
           \/ exists up, Parent q up ∈ take 22 calls
                /\ "proximity_bake:root|proximity_bake:spine" = up +:+ "|" +:+ q).
Proof.
  intros joints calls. split; [reflexivity|].
  apply (build_skeleton_parents_first (answering_build_handler None) tt spine_view
           "|rig|root" "root" []
           (joint_paths "|rig|root" [["spine"; "head"]; ["spine"]; ["arm"]])
           joints "proximity_bake" (take 22 calls) (drop 23 calls)
           "proximity_bake:head" "proximity_bake:root|proximity_bake:spine");
    [reflexivity|reflexivity|apply spine_paths_below|reflexivity|discriminate
    |apply answering_names_as_asked|reflexivity].
Defined.

(** *** The duplicate of a mesh *)

Lemma clean_shape_run (v : DupView) (shape : string) :
  build_run (dup_handler v) (clean_shape shape) tt = Ok (tt, tt)
  /\ build_trace (dup_handler v) (clean_shape shape) tt =
     GetAttr_bool (shape +:+ ".intermediateObject")
     :: (if dv_flag v (shape +:+ ".intermediateObject") then [Delete_node shape] else []).
Proof.
  unfold clean_shape.
  cbn [mbind build_bind build_bind_def bcall build_run build_trace dup_handler].
  by destruct (dv_flag v (shape +:+ ".intermediateObject")).
Qed.

Lemma clean_shapes_run (v : DupView) (shapes : list string) :
  build_run (dup_handler v) (bfor_each shapes clean_shape) tt = Ok (tt, tt)
  /\ deleted_nodes (build_trace (dup_handler v) (bfor_each shapes clean_shape) tt) =
     List.filter (fun shape => dv_flag v (shape +:+ ".intermediateObject")) shapes
  /\ Forall (fun c => forall x, c <> Parent_w x)
       (build_trace (dup_handler v) (bfor_each shapes clean_shape) tt).
Proof.
  induction shapes as [|shape shapes (IHr & IHd & IHp)]; [by repeat split|].
  cbn [bfor_each List.filter]. rewrite build_run_bind, build_trace_bind.
  destruct (clean_shape_run v shape) as [-> ->]. rewrite IHr.
  split; [done|]. unfold deleted_nodes in *. rewrite omap_app, IHd. split.
  - by destruct (dv_flag v (shape +:+ ".intermediateObject")).
  - apply Forall_app. split; [|done].
    destruct (dv_flag v (shape +:+ ".intermediateObject")); by repeat constructor.
Qed.

(** X21: on a host that duplicates the mesh, [dup_and_clean_geom] returns
    the name the host gave the duplicate when it was asked to rename it to
    the short name of the mesh under the namespace; it moves the duplicate
    to the world exactly when the host lists a parent for it; and the nodes
    it deletes are exactly the shapes of the duplicate whose
    [intermediateObject] flag is set, each once, in the order listed. *)
Theorem dup_and_clean_geom_deletes_intermediate (v : DupView) (geom_path namespace : string)
    (dupped : string) (others : list string) :
  dv_duplicate v geom_path = dupped :: others ->
  let dupped_geom :=
    dv_rename v dupped (namespace +:+ ":" +:+ item_last (split "|" geom_path)) in
  let calls := build_trace (dup_handler v) (dup_and_clean_geom geom_path namespace) tt in
  build_run (dup_handler v) (dup_and_clean_geom geom_path namespace) tt =
    Ok (dupped_geom, tt)
  /\ (Parent_w dupped_geom ∈ calls <->
      exists parent parents, dv_parents v dupped_geom = Some (parent :: parents))
  /\ deleted_nodes calls =
     List.filter (fun shape => dv_flag v (shape +:+ ".intermediateObject"))
       (default [] (dv_shapes v dupped_geom)).
Proof.
  intros Hdup dupped_geom calls. unfold calls, dup_and_clean_geom.
  cbn [mbind build_bind build_bind_def bcall build_run build_trace dup_handler].
  rewrite Hdup.
  cbn [item0 blift mbind build_bind build_bind_def bcall build_run build_trace
         dup_handler].
  fold dupped_geom.
  destruct (clean_shapes_run v (default [] (dv_shapes v dupped_geom)))
    as (Hrun & Hdel & Hnp).
  assert (Hloop :
    forall rest : Build string,
      rest = match dv_shapes v dupped_geom with
             | Some ((_ :: _) as shapes) => bfor_each shapes clean_shape;; mret dupped_geom
             | _ => mret dupped_geom
             end ->
      build_run (dup_handler v) rest tt = Ok (dupped_geom, tt)
      /\ deleted_nodes (build_trace (dup_handler v) rest tt) =
         List.filter (fun shape => dv_flag v (shape +:+ ".intermediateObject"))
           (default [] (dv_shapes v dupped_geom))
      /\ Forall (fun c => forall x, c <> Parent_w x) (build_trace (dup_handler v) rest tt)).
  { intros rest ->. destruct (dv_shapes v dupped_geom) as [[|shape shapes]|];
      [by repeat split|cbn [default from_option id] in *|by repeat split].
    rewrite build_run_bind, build_trace_bind, Hrun.
    cbn [build_run build_trace mret build_ret]. by rewrite app_nil_r. }
  destruct (dv_parents v dupped_geom) as [[|parent parents]|];
    cbn [mbind build_bind build_bind_def bcall build_run build_trace dup_handler
           mret build_ret];
    match goal with
    | |- context [build_run (dup_handler v) ?rest tt] =>
        destruct (Hloop rest eq_refl) as (Hr & Hd & Hp)
    end.
  - split; [done|]. split; [|done]. split; [|by intros (? & ? & ?)].
    intros H. repeat (apply elem_of_cons in H as [H|H]; [discriminate H|]).
    rewrite Forall_forall in Hp. by destruct (Hp _ H dupped_geom).
  - split; [done|]. split; [|done]. split; [by eexists _, _|].
    intros _. do 3 right. left.
  - split; [done|]. split; [|done]. split; [|by intros (? & ? & ?)].
    intros H. repeat (apply elem_of_cons in H as [H|H]; [discriminate H|]).
    rewrite Forall_forall in Hp. by destruct (Hp _ H dupped_geom).
Qed.

(** The duplicate of the example mesh loses its intermediate shape. *)
Lemma dup_and_clean_geom_deletes_intermediate_witness :
  let calls :=
    build_trace (dup_handler demo_dup) (dup_and_clean_geom "|geo|body" "proximity_bake") tt in
  build_run (dup_handler demo_dup) (dup_and_clean_geom "|geo|body" "proximity_bake") tt =
    Ok ("proximity_bake:body", tt)
  /\ (Parent_w "proximity_bake:body" ∈ calls <->
      exists parent parents,
        dv_parents demo_dup "proximity_bake:body" = Some (parent :: parents))
  /\ deleted_nodes calls = ["proximity_bake:body|bodyShapeOrig"].
Proof.
  apply (dup_and_clean_geom_deletes_intermediate demo_dup "|geo|body" "proximity_bake"
           "body1" []).
  reflexivity.
Defined.
